(** * Station_Control: the docking-station sketches, embedded and verified

    Two Arduino sketches drive the same door/plate mechanism:
    - [Station.cpp]: one web-socket listener, sensor-guarded commands;
    - [RosStationCommunication.cpp]: a ROS listener and a web listener,
      timed take-off/landing sequences and a wireless-power relay.

    The sketches are sequences of calls into the Arduino core
    ([digitalWrite], [digitalRead], [delay], [Serial.println]) and the
    PHPoC shield ([server.write], [client.flush]).  A sketch procedure is
    embedded as a program of the monad [prog]: it takes the board state and
    returns a value, the next board state and the timed I/O it performed. *)

From Stdlib Require Import ZArith List String Ascii Bool Lia.
Import ListNotations.

Open Scope Z_scope.

(** ** The Arduino core *)

(** [HIGH] and [LOW], the two values of a digital pin. *)
Inductive level : Type := LOW | HIGH.

Definition level_eqb (a b : level) : bool :=
  match a, b with
  | LOW, LOW | HIGH, HIGH => true
  | _, _ => false
  end.

(** What a sketch does to the outside world.  Servers and the clients they
    hand out are named by the port the server listens on. *)
Inductive event : Type :=
| DigitalWrite (pin : Z) (val : level)
| SerialPrintln (line : string)
| ServerWrite (port : Z) (c : ascii)
| ClientFlush (port : Z).

(** An event together with the time, in ms of [delay] since power-on, at
    which it was issued. *)
Definition timed : Type := (Z * event)%type.

Section Board.

(** The global variables of the sketch. *)
Context {G : Type}.

Record machine : Type := Machine {
  globals : G;
  pins : Z -> level;      (* level last driven on each output pin *)
  inputs : Z -> level;    (* level currently seen on each input pin *)
  elapsed : Z             (* ms spent in [delay] so far *)
}.

Record outcome (A : Type) : Type := Outcome {
  value : A;
  final : machine;
  output : list timed
}.
Arguments Outcome {A}.
Arguments value {A}.
Arguments final {A}.
Arguments output {A}.

Definition prog (A : Type) : Type := machine -> outcome A.

Definition ret {A} (a : A) : prog A :=
  fun m => Outcome a m [].

Definition bind {A B} (p : prog A) (k : A -> prog B) : prog B :=
  fun m =>
    let r := p m in
    let r' := k (value r) (final r) in
    Outcome (value r') (final r') (output r ++ output r').

Definition emit (e : event) : prog unit :=
  fun m => Outcome tt m [(elapsed m, e)].

Definition get_globals : prog G :=
  fun m => Outcome (globals m) m [].

Definition put_globals (g : G) : prog unit :=
  fun m => Outcome tt (Machine g (pins m) (inputs m) (elapsed m)) [].

Definition upd (f : Z -> level) (pin : Z) (val : level) : Z -> level :=
  fun q => if q =? pin then val else f q.

Definition digitalWrite (pin : Z) (val : level) : prog unit :=
  fun m =>
    Outcome tt
      (Machine (globals m) (upd (pins m) pin val) (inputs m) (elapsed m))
      [(elapsed m, DigitalWrite pin val)].

Definition digitalRead (pin : Z) : prog level :=
  fun m => Outcome (inputs m pin) m [].

Definition delay (ms : Z) : prog unit :=
  fun m =>
    Outcome tt (Machine (globals m) (pins m) (inputs m) (elapsed m + ms)) [].

Definition Serial_println (line : string) : prog unit :=
  emit (SerialPrintln line).

(** [if (c) { body }] with no else branch. *)
Definition when (c : bool) (body : prog unit) : prog unit :=
  if c then body else ret tt.

(** [switch (command) { case k: body; break; ... default: d; break; }]:
    every case of both sketches ends in [break], so the first label equal
    to [command] selects the body and no case falls through. *)
Fixpoint switch (command : ascii) (cases : list (ascii * prog unit))
         (default : prog unit) : prog unit :=
  match cases with
  | [] => default
  | (label, body) :: rest =>
      if Ascii.eqb command label then body else switch command rest default
  end.

(** State and I/O of running a program. *)
Definition exec {A} (p : prog A) (m : machine) : machine := final (p m).
Definition io {A} (p : prog A) (m : machine) : list timed := output (p m).

End Board.

Arguments machine : clear implicits.
Arguments prog : clear implicits.
Arguments outcome : clear implicits.
Arguments Outcome {G A}.
Arguments value {G A}.
Arguments final {G A}.
Arguments output {G A}.

Declare Scope prog_scope.
Delimit Scope prog_scope with prog.
Notation "x <- p ;; k" := (bind p (fun x => k))
  (at level 61, p at next level, right associativity) : prog_scope.
Notation "p ;; k" := (bind p (fun _ => k))
  (at level 61, right associativity) : prog_scope.
Open Scope prog_scope.

(** ** The PHPoC shield *)

(** A [PhpocClient] as [server.available()] returns it: whether it stands
    for a connected peer, and the bytes that peer has sent and the sketch
    has not read yet. *)
Record PhpocClient : Type := Client {
  connected : bool;
  rx : list ascii
}.

(** [client.available()]: the number of bytes ready to be read. *)
Definition client_available (c : PhpocClient) : Z :=
  if connected c then Z.of_nat (List.length (rx c)) else 0.

(** [client.read()] stored into a [char]: the oldest unread byte; with
    nothing to read the library returns -1, which is 0xFF as a [char]. *)
Definition client_read (c : PhpocClient) : ascii :=
  match rx c with
  | b :: _ => b
  | [] => ascii_of_nat 255
  end.

Definition no_client : PhpocClient := Client false [].

(** * Station.cpp: the single-channel sketch *)

Module Station.

(** The sketch has no global variables besides the server object. *)
Definition state : Type := machine unit.

Definition server_port : Z := 80.

Definition DOOR_DIRECTION_PIN : Z := 4.
Definition DOOR_ENABLE_PIN : Z := 5.
Definition PLATE_DIRECTION_PIN : Z := 6.
Definition PLATE_ENABLE_PIN : Z := 7.
Definition DOOR_PHOTO_PIN : Z := 8.
Definition PLATE_PHOTO_PIN : Z := 9.

Definition StopAllMotors : prog unit unit :=
  digitalWrite DOOR_ENABLE_PIN HIGH ;;
  digitalWrite PLATE_ENABLE_PIN HIGH.

Definition CloseDoor : prog unit unit :=
  digitalWrite DOOR_DIRECTION_PIN HIGH ;;
  digitalWrite DOOR_ENABLE_PIN LOW.

Definition OpenDoor : prog unit unit :=
  digitalWrite DOOR_DIRECTION_PIN LOW ;;
  digitalWrite DOOR_ENABLE_PIN LOW.

Definition RetractPlate : prog unit unit :=
  digitalWrite PLATE_DIRECTION_PIN HIGH ;;
  digitalWrite PLATE_ENABLE_PIN LOW.

Definition ExtendPlate : prog unit unit :=
  digitalWrite PLATE_DIRECTION_PIN LOW ;;
  digitalWrite PLATE_ENABLE_PIN LOW.

(** The [switch] of [loop], given the two sensor snapshots. *)
Definition cases (isDoorClosed isPlateIn : bool)
  : list (ascii * prog unit unit) :=
  [ ("A"%char,
      Serial_println "Extend Plate" ;;
      when isDoorClosed ExtendPlate);
    ("D"%char,
      Serial_println "Retract Plate" ;;
      RetractPlate);
    ("B"%char,
      Serial_println "Open Door" ;;
      OpenDoor);
    ("E"%char,
      Serial_println "Close Door" ;;
      when isPlateIn CloseDoor);
    ("G"%char,
      Serial_println "Take Off Sequence" ;;
      when isPlateIn
        (OpenDoor ;;
         when isDoorClosed ExtendPlate));
    ("H"%char,
      Serial_println "Landing Sequence" ;;
      RetractPlate ;;
      when isPlateIn
        (CloseDoor ;;
         when isDoorClosed StopAllMotors));
    ("I"%char,
      Serial_println "Stop All" ;;
      StopAllMotors) ].

(** What [loop] does with a command byte it has read: snapshot both
    photo sensors, then dispatch. *)
Definition dispatch (command : ascii) : prog unit unit :=
  door <- digitalRead DOOR_PHOTO_PIN ;;
  let isDoorClosed := level_eqb door LOW in
  plate <- digitalRead PLATE_PHOTO_PIN ;;
  let isPlateIn := level_eqb plate LOW in
  switch command (cases isDoorClosed isPlateIn)
    (Serial_println "Unknown command").

(** One pass of [loop], for the client [server.available()] returned. *)
Definition loop (client : PhpocClient) : prog unit unit :=
  when (connected client)
    (when (0 <? client_available client)
       (let command := client_read client in
        dispatch command)).

(** [setup] from the first [pinMode] on: the part that drives pins.  The
    bring-up before it (lines 22-35: [Serial.begin], [Phpoc.begin],
    [beginWebSocket], and the [Serial.print]/[Serial.println] of the
    address line) writes no pin; it is not embedded, so the I/O of
    [setup] here holds the pin writes of [setup()] and none of its serial
    output. *)
Definition setup : prog unit unit :=
  StopAllMotors.

End Station.

(** * RosStationCommunication.cpp: the dual-channel sketch *)

Module RosStation.

(** The two global variables of the sketch. *)
Record sketch_globals : Type := Globals {
  alreadyConnected : bool;
  wirelessPowerState : Z     (* 0: on, 1: off *)
}.

Definition state : Type := machine sketch_globals.

(** The initializers of the globals. *)
Definition initial_globals : sketch_globals :=
  {| alreadyConnected := false; wirelessPowerState := 1 |}.

Definition ros_server : Z := 23.
Definition web_server : Z := 80.

Definition DOOR_DIRECTION_PIN : Z := 4.
Definition DOOR_ENABLE_PIN : Z := 5.
Definition PLATE_DIRECTION_PIN : Z := 6.
Definition PLATE_ENABLE_PIN : Z := 7.
Definition DOOR_PHOTO_PIN : Z := 8.
Definition PLATE_PHOTO_PIN : Z := 9.
Definition WPT_RELAY_PIN : Z := 10.

Definition DOOR_TIME : Z := 25000.
Definition PLATE_TIME : Z := 45000.

Definition set_alreadyConnected (b : bool) : prog sketch_globals unit :=
  g <- get_globals ;;
  put_globals {| alreadyConnected := b;
                 wirelessPowerState := wirelessPowerState g |}.

Definition set_wirelessPowerState (v : Z) : prog sketch_globals unit :=
  g <- get_globals ;;
  put_globals {| alreadyConnected := alreadyConnected g;
                 wirelessPowerState := v |}.

(** [server.write(c)] and [client.flush()]. *)
Definition server_write (port : Z) (c : ascii) : prog sketch_globals unit :=
  emit (ServerWrite port c).

Definition client_flush (port : Z) : prog sketch_globals unit :=
  emit (ClientFlush port).

Definition StopAllMotors : prog sketch_globals unit :=
  digitalWrite DOOR_ENABLE_PIN HIGH ;;
  digitalWrite PLATE_ENABLE_PIN HIGH.

Definition CloseDoor : prog sketch_globals unit :=
  digitalWrite DOOR_DIRECTION_PIN HIGH ;;
  digitalWrite DOOR_ENABLE_PIN LOW.

Definition OpenDoor : prog sketch_globals unit :=
  digitalWrite DOOR_DIRECTION_PIN LOW ;;
  digitalWrite DOOR_ENABLE_PIN LOW.

Definition RetractPlate : prog sketch_globals unit :=
  digitalWrite PLATE_DIRECTION_PIN HIGH ;;
  digitalWrite PLATE_ENABLE_PIN LOW.

Definition ExtendPlate : prog sketch_globals unit :=
  digitalWrite PLATE_DIRECTION_PIN LOW ;;
  digitalWrite PLATE_ENABLE_PIN LOW.

Definition TakeOffSequence : prog sketch_globals unit :=
  OpenDoor ;;
  delay DOOR_TIME ;;
  ExtendPlate ;;
  delay PLATE_TIME.

Definition LandingSequence : prog sketch_globals unit :=
  RetractPlate ;;
  delay PLATE_TIME ;;
  CloseDoor ;;
  delay DOOR_TIME.

Definition EnableWirelessPower : prog sketch_globals unit :=
  digitalWrite WPT_RELAY_PIN HIGH.

Definition DisableWirelessPower : prog sketch_globals unit :=
  digitalWrite WPT_RELAY_PIN LOW.

(** The [switch] over a byte read from the ROS client. *)
Definition ros_cases : list (ascii * prog sketch_globals unit) :=
  [ ("a"%char,
      Serial_println "ROS: Extend Plate" ;;
      ExtendPlate ;;
      server_write ros_server "A");
    ("b"%char,
      Serial_println "ROS: Retract Plate" ;;
      RetractPlate ;;
      server_write ros_server "B");
    ("c"%char,
      Serial_println "ROS: Open Door" ;;
      OpenDoor ;;
      server_write ros_server "C");
    ("d"%char,
      Serial_println "ROS: Close Door" ;;
      CloseDoor ;;
      server_write ros_server "D");
    ("e"%char,
      Serial_println "ROS: Wireless Power On" ;;
      set_wirelessPowerState 0 ;;
      server_write ros_server "E");
    ("f"%char,
      Serial_println "ROS: Wireless Power Off" ;;
      set_wirelessPowerState 1 ;;
      server_write ros_server "F");
    ("z"%char,
      Serial_println "ROS: Take Off Sequence" ;;
      TakeOffSequence ;;
      server_write ros_server "Z");
    ("x"%char,
      Serial_println "ROS: Landing Sequence" ;;
      LandingSequence ;;
      server_write ros_server "X");
    ("g"%char,
      Serial_println "ROS: Stop All" ;;
      StopAllMotors ;;
      server_write ros_server "G") ].

Definition ros_dispatch (command : ascii) : prog sketch_globals unit :=
  switch command ros_cases (Serial_println "Unknown ROS command").

(** The [switch] over a byte read from the web client. *)
Definition web_cases : list (ascii * prog sketch_globals unit) :=
  [ ("A"%char,
      Serial_println "Web: Extend Plate" ;;
      ExtendPlate);
    ("D"%char,
      Serial_println "Web: Retract Plate" ;;
      RetractPlate);
    ("B"%char,
      Serial_println "Web: Open Door" ;;
      OpenDoor);
    ("E"%char,
      Serial_println "Web: Close Door" ;;
      CloseDoor);
    ("C"%char,
      Serial_println "Web: Wireless Power On" ;;
      set_wirelessPowerState 0);
    ("F"%char,
      Serial_println "Web: Wireless Power Off" ;;
      set_wirelessPowerState 1);
    ("G"%char,
      Serial_println "Web: Take Off Sequence" ;;
      TakeOffSequence);
    ("H"%char,
      Serial_println "Web: Landing Sequence" ;;
      LandingSequence);
    ("I"%char,
      Serial_println "Web: Stop All" ;;
      StopAllMotors) ].

Definition web_dispatch (command : ascii) : prog sketch_globals unit :=
  switch command web_cases (Serial_println "Unknown Web command").

(** Lines 78-84: what is done the first time a client shows up. *)
Definition greet_new_client : prog sketch_globals unit :=
  g <- get_globals ;;
  when (negb (alreadyConnected g))
    (client_flush ros_server ;;
     client_flush web_server ;;
     Serial_println "New client connected" ;;
     set_alreadyConnected true).

(** Lines 188-193: the relay follows [wirelessPowerState]. *)
Definition drive_relay : prog sketch_globals unit :=
  g <- get_globals ;;
  if wirelessPowerState g =? 0
  then EnableWirelessPower
  else DisableWirelessPower.

(** One pass of [loop], for the clients the two [server.available()]
    calls returned. *)
Definition loop (ros_client web_client : PhpocClient)
  : prog sketch_globals unit :=
  when (connected ros_client || connected web_client)
    (greet_new_client ;;
     when (0 <? client_available ros_client)
       (let command := client_read ros_client in
        ros_dispatch command) ;;
     when (0 <? client_available web_client)
       (let command := client_read web_client in
        web_dispatch command)) ;;
  drive_relay.

(** [setup] from the first [pinMode] on: the part that drives pins.  The
    bring-up before it (lines 38-55: [Serial.begin], [Phpoc.begin], the
    two server starts, and the [Serial.print]/[Serial.println] of the two
    address lines) writes no pin and assigns no global; it is not
    embedded, so the I/O of [setup] here holds the pin writes of
    [setup()] and none of its serial output. *)
Definition setup : prog sketch_globals unit :=
  StopAllMotors ;;
  DisableWirelessPower.

(** The board at power-on: globals at their initializers, pins and
    sensors as the hardware has them. *)
Definition power_on (pins0 inputs0 : Z -> level) : state :=
  Machine initial_globals pins0 inputs0 0.

(** The Arduino main program runs [loop] over and over; [polls] lists
    what the two servers answer in each pass. *)
Fixpoint loops (polls : list (PhpocClient * PhpocClient))
  : prog sketch_globals unit :=
  match polls with
  | [] => ret tt
  | (ros_client, web_client) :: rest =>
      loop ros_client web_client ;; loops rest
  end.

Definition main (polls : list (PhpocClient * PhpocClient))
  : prog sketch_globals unit :=
  setup ;; loops polls.

End RosStation.

(** * Vocabulary of the specification *)

(** The pin writes, log lines, server writes and flushes among the I/O of a
    program, in the order they were issued. *)
Fixpoint pin_writes (tr : list timed) : list (Z * level) :=
  match tr with
  | [] => []
  | (_, DigitalWrite pin val) :: rest => (pin, val) :: pin_writes rest
  | _ :: rest => pin_writes rest
  end.

Fixpoint log_lines (tr : list timed) : list string :=
  match tr with
  | [] => []
  | (_, SerialPrintln line) :: rest => line :: log_lines rest
  | _ :: rest => log_lines rest
  end.

Fixpoint server_writes (tr : list timed) : list (Z * ascii) :=
  match tr with
  | [] => []
  | (_, ServerWrite port c) :: rest => (port, c) :: server_writes rest
  | _ :: rest => server_writes rest
  end.

Fixpoint flushes (tr : list timed) : list Z :=
  match tr with
  | [] => []
  | (_, ClientFlush port) :: rest => port :: flushes rest
  | _ :: rest => flushes rest
  end.

(** The level a list of pin writes leaves on [pin], if it writes it. *)
Fixpoint last_write (pin : Z) (ws : list (Z * level)) : option level :=
  match ws with
  | [] => None
  | (q, val) :: rest =>
      match last_write pin rest with
      | Some v => Some v
      | None => if pin =? q then Some val else None
      end
  end.

(** The uppercase equivalent of a byte: lowercase letters move down by 32,
    every other byte stays. *)
Definition to_upper (c : ascii) : ascii :=
  let n := nat_of_ascii c in
  if ((97 <=? n) && (n <=? 122))%nat then ascii_of_nat (n - 32) else c.

(** The command alphabets of the three listeners. *)
Definition channel_A_alphabet : list ascii :=
  ["a"; "b"; "c"; "d"; "e"; "f"; "z"; "x"; "g"]%char.

Definition channel_B_alphabet : list ascii :=
  ["A"; "B"; "D"; "E"; "G"; "H"; "I"; "C"; "F"]%char.

Definition single_channel_alphabet : list ascii :=
  ["A"; "D"; "B"; "E"; "G"; "H"; "I"]%char.

(** The two sensor snapshots of the single-channel sketch. *)
Definition isDoorClosed (s : Station.state) : bool :=
  level_eqb (inputs s Station.DOOR_PHOTO_PIN) LOW.

Definition isPlateIn (s : Station.state) : bool :=
  level_eqb (inputs s Station.PLATE_PHOTO_PIN) LOW.

(** How many times [line] occurs in a log. *)
Definition occurrences (line : string) (log : list string) : nat :=
  List.length (filter (String.eqb line) log).

(** Whether some pass of a poll history sees a client on either server. *)
Definition client_present (poll : PhpocClient * PhpocClient) : bool :=
  connected (fst poll) || connected (snd poll).

(** ** The claims about Station.cpp's take-off command and about the
       connection flag, as the specification words them *)

(** Command G as the specification words it: under the outer guard
    [isPlateIn], OpenDoor and then, if [isPlateIn] again, ExtendPlate. *)
Definition takeoff_as_specified (plateIn : bool) : prog unit unit :=
  when plateIn
    (Station.OpenDoor ;;
     when plateIn Station.ExtendPlate).

Definition takeoff_inner_guard_is_plate_sensor : Prop :=
  forall s : Station.state,
    pin_writes (io (Station.dispatch "G") s)
    = pin_writes (io (takeoff_as_specified (isPlateIn s)) s).

(** The flag as the specification words it: after a pass it tells whether a
    client was connected in that pass ... *)
Definition flag_tracks_previous_pass : Prop :=
  forall (ros_client web_client : PhpocClient) (s : RosStation.state),
    RosStation.alreadyConnected
      (globals (exec (RosStation.loop ros_client web_client) s))
    = client_present (ros_client, web_client).

(** ... so that a client showing up after a pass without clients is greeted
    again. *)
Definition every_reconnect_is_greeted : Prop :=
  forall (gone back : PhpocClient * PhpocClient) (s : RosStation.state),
    client_present gone = false ->
    client_present back = true ->
    In "New client connected"%string
       (log_lines
          (io (RosStation.loop (fst back) (snd back))
              (exec (RosStation.loop (fst gone) (snd gone)) s))).

(** A poll history with a connect, a disconnect and a reconnect. *)
Definition ros_peer (bytes : list ascii) : PhpocClient := Client true bytes.
Definition web_peer (bytes : list ascii) : PhpocClient := Client true bytes.

Definition reconnect_history : list (PhpocClient * PhpocClient) :=
  [ (ros_peer [], no_client);
    (no_client, no_client);
    (ros_peer [], no_client) ].

(** A single-channel board with the plate retracted and the door open. *)
Definition plate_in_door_open : Station.state :=
  Machine tt (fun _ => HIGH)
    (fun pin => if pin =? Station.PLATE_PHOTO_PIN then LOW else HIGH) 0.

(** Single-channel boards with the door sensor reading HIGH and LOW. *)
Definition door_sensor_high : Station.state :=
  Machine tt (fun _ => HIGH) (fun _ => HIGH) 0.

Definition door_sensor_low : Station.state :=
  Machine tt (fun _ => HIGH) (fun _ => LOW) 0.

(** A dual-channel board just after power-on, every pin low. *)
Definition cold_board : RosStation.state :=
  RosStation.power_on (fun _ => LOW) (fun _ => HIGH).

(** The relay pin agrees with the wireless-power flag: HIGH exactly when
    the flag says on (0), LOW exactly when it says anything else. *)
Definition relay_matches_flag (s : RosStation.state) : Prop :=
  (pins s RosStation.WPT_RELAY_PIN = HIGH
   <-> RosStation.wirelessPowerState (globals s) = 0)
  /\ (pins s RosStation.WPT_RELAY_PIN = LOW
      <-> RosStation.wirelessPowerState (globals s) <> 0).

(** The line logged when a client is greeted. *)
Definition greeting : string := "New client connected".

(** Whether a pass greets: a client is there and none was seen before. *)
Definition greets (s : RosStation.state) (poll : PhpocClient * PhpocClient)
  : bool :=
  client_present poll && negb (RosStation.alreadyConnected (globals s)).

(** A program that has no part in greeting: it keeps the connection flag,
    flushes nothing and does not log the greeting. *)
Definition quiet {A} (p : prog RosStation.sketch_globals A) : Prop :=
  forall s,
    RosStation.alreadyConnected (globals (exec p s))
    = RosStation.alreadyConnected (globals s)
    /\ flushes (io p s) = []
    /\ occurrences greeting (log_lines (io p s)) = 0%nat.

(** A program whose effect on the pins is that of its pin writes: a pin it
    wrote holds the last level written, any other pin its old level. *)
Definition pins_follow_writes {G A} (p : prog G A) : Prop :=
  forall s pin,
    pins (exec p s) pin
    = match last_write pin (pin_writes (io p s)) with
      | Some v => v
      | None => pins s pin
      end.

(** The two guarded dispatches of a pass of the dual-channel [loop]. *)
Definition serve_ros (ros_client : PhpocClient)
  : prog RosStation.sketch_globals unit :=
  when (0 <? client_available ros_client)
    (RosStation.ros_dispatch (client_read ros_client)).

Definition serve_web (web_client : PhpocClient)
  : prog RosStation.sketch_globals unit :=
  when (0 <? client_available web_client)
    (RosStation.web_dispatch (client_read web_client)).

(** ** Vocabulary for the properties beyond the claims *)

(** The four motor pins, and the pins a pass of the dual-channel loop may
    drive. *)
Definition motor_pins : list Z :=
  [RosStation.DOOR_DIRECTION_PIN; RosStation.DOOR_ENABLE_PIN;
   RosStation.PLATE_DIRECTION_PIN; RosStation.PLATE_ENABLE_PIN].

Definition output_pins : list Z := motor_pins ++ [RosStation.WPT_RELAY_PIN].

(** Whether every pin write of [ws] is to one of the pins [allowed]. *)
Definition only_pins (allowed : list Z) (ws : list (Z * level)) : bool :=
  forallb (fun w => existsb (Z.eqb (fst w)) allowed) ws.

(** Whether [ws] has a write of [val] to [pin]. *)
Definition writes_level (pin : Z) (val : level) (ws : list (Z * level))
  : bool :=
  existsb (fun w => (fst w =? pin) && level_eqb (snd w) val) ws.

(** The byte of the web switch that does what a byte of the ROS switch
    does, case by case. *)
Definition channel_pairs : list (ascii * ascii) :=
  [ ("a", "A"); ("b", "D"); ("c", "B"); ("d", "E"); ("e", "C");
    ("f", "F"); ("z", "G"); ("x", "H"); ("g", "I") ]%char.

(** The same board with other levels on its input pins. *)
Definition set_inputs {G} (levels : Z -> level) (s : machine G) : machine G :=
  Machine (globals s) (pins s) levels (elapsed s).

(** A program that never looks at the input pins: run on a board with
    other input levels it returns the same value, does the same I/O and
    ends in the same board, input levels apart. *)
Definition ignores_inputs {G A} (p : prog G A) : Prop :=
  forall (levels : Z -> level) (s : machine G),
    p (set_inputs levels s)
    = Outcome (value (p s)) (set_inputs levels (final (p s))) (output (p s)).

(** A pass in which neither client has a byte to read. *)
Definition silent (poll : PhpocClient * PhpocClient) : bool :=
  negb (0 <? client_available (fst poll))
  && negb (0 <? client_available (snd poll)).

(** The wireless-power flag holds one of its two documented values. *)
Definition flag_in_range (s : RosStation.state) : Prop :=
  RosStation.wirelessPowerState (globals s) = 0
  \/ RosStation.wirelessPowerState (globals s) = 1.

(** The blocking time of the byte of a take-off or landing case. *)
Definition sequence_time : Z := RosStation.DOOR_TIME + RosStation.PLATE_TIME.

(** What a program of the single-channel sketch may do at most: log one
    line, write motor pins, and nothing else. *)
Definition single_channel_footprint (p : prog unit unit) : Prop :=
  forall s : Station.state,
    List.length (log_lines (io p s)) = 1%nat
    /\ server_writes (io p s) = []
    /\ flushes (io p s) = []
    /\ only_pins motor_pins (pin_writes (io p s)) = true
    /\ elapsed (exec p s) = elapsed s
    /\ inputs (exec p s) = inputs s.

(** A program of the single-channel sketch that never starts the plate
    towards extension and never starts the door towards closing. *)
Definition no_extend (p : prog unit unit) : Prop :=
  forall s : Station.state,
    writes_level Station.PLATE_DIRECTION_PIN LOW (pin_writes (io p s))
    = false.

Definition no_close (p : prog unit unit) : Prop :=
  forall s : Station.state,
    writes_level Station.DOOR_DIRECTION_PIN HIGH (pin_writes (io p s))
    = false.

(** Single-channel boards with both sensors LOW, and with the plate
    sensor HIGH. *)
Definition plate_sensor_high : Station.state :=
  Machine tt (fun _ => LOW)
    (fun pin => if pin =? Station.PLATE_PHOTO_PIN then HIGH else LOW) 0.

(** The wireless-power flag after the ROS switch, after the web switch and
    after a whole pass, given its value before. *)
Definition flag_after_ros (c : ascii) (old : Z) : Z :=
  if Ascii.eqb c "e" then 0 else if Ascii.eqb c "f" then 1 else old.

Definition flag_after_web (c : ascii) (old : Z) : Z :=
  if Ascii.eqb c "C" then 0 else if Ascii.eqb c "F" then 1 else old.

Definition flag_after_pass (ros_client web_client : PhpocClient) (old : Z)
  : Z :=
  let mid :=
    if 0 <? client_available ros_client
    then flag_after_ros (client_read ros_client) old
    else old in
  if 0 <? client_available web_client
  then flag_after_web (client_read web_client) mid
  else mid.

(** The timed I/O of a program with the log lines and the server writes
    taken out: what it does to the board and the clients, and when. *)
Fixpoint board_events (tr : list timed) : list timed :=
  match tr with
  | [] => []
  | (_, SerialPrintln _) :: rest => board_events rest
  | (_, ServerWrite _ _) :: rest => board_events rest
  | e :: rest => e :: board_events rest
  end.

(** * Proofs *)

(** ** Laws of [prog] and of the trace projections *)

Section ProgLaws.

Context {G : Type}.

Lemma io_bind {A B} (p : prog G A) (k : A -> prog G B) (s : machine G) :
  io (bind p k) s = io p s ++ io (k (value (p s))) (exec p s).
Proof. reflexivity. Qed.

Lemma exec_bind {A B} (p : prog G A) (k : A -> prog G B) (s : machine G) :
  exec (bind p k) s = exec (k (value (p s))) (exec p s).
Proof. reflexivity. Qed.

(** A byte that is no case label runs the default branch. *)
Lemma switch_default (c : ascii) (cases : list (ascii * prog G unit))
      (d : prog G unit) :
  ~ In c (map fst cases) -> switch c cases d = d.
Proof.
  induction cases as [| [label body] rest IH]; intros Hnotin.
  - reflexivity.
  - simpl in *.
    destruct (Ascii.eqb c label) eqn:E.
    + apply Ascii.eqb_eq in E. subst. tauto.
    + apply IH. tauto.
Qed.

(** A byte that is a case label runs one of the bodies. *)
Lemma switch_case (c : ascii) (cases : list (ascii * prog G unit))
      (d : prog G unit) :
  In c (map fst cases) ->
  exists body, In (c, body) cases /\ switch c cases d = body.
Proof.
  induction cases as [| [label body] rest IH]; intros Hin.
  - destruct Hin.
  - simpl. destruct (Ascii.eqb c label) eqn:E.
    + apply Ascii.eqb_eq in E. subst.
      exists body. split; [left |]; reflexivity.
    + simpl in Hin. destruct Hin as [-> | Hin].
      * rewrite Ascii.eqb_refl in E. discriminate.
      * destruct (IH Hin) as [b [Hb Heq]].
        exists b. split; [right |]; assumption.
Qed.

(** Whatever the byte, [switch] runs a case body or the default. *)
Lemma switch_cover (P : prog G unit -> Prop) (c : ascii)
      (cases : list (ascii * prog G unit)) (d : prog G unit) :
  Forall (fun kb => P (snd kb)) cases -> P d -> P (switch c cases d).
Proof.
  intros Hcases Hd.
  induction Hcases as [| [label body] rest Hbody _ IH]; simpl.
  - exact Hd.
  - destruct (Ascii.eqb c label); [exact Hbody | exact IH].
Qed.

End ProgLaws.

Lemma pin_writes_app (a b : list timed) :
  pin_writes (a ++ b) = pin_writes a ++ pin_writes b.
Proof.
  induction a as [| [t e] a IH]; simpl; [reflexivity |].
  destruct e; simpl; rewrite IH; reflexivity.
Qed.

Lemma log_lines_app (a b : list timed) :
  log_lines (a ++ b) = log_lines a ++ log_lines b.
Proof.
  induction a as [| [t e] a IH]; simpl; [reflexivity |].
  destruct e; simpl; rewrite IH; reflexivity.
Qed.

Lemma server_writes_app (a b : list timed) :
  server_writes (a ++ b) = server_writes a ++ server_writes b.
Proof.
  induction a as [| [t e] a IH]; simpl; [reflexivity |].
  destruct e; simpl; rewrite IH; reflexivity.
Qed.

Lemma flushes_app (a b : list timed) :
  flushes (a ++ b) = flushes a ++ flushes b.
Proof.
  induction a as [| [t e] a IH]; simpl; [reflexivity |].
  destruct e; simpl; rewrite IH; reflexivity.
Qed.

Lemma last_write_app (pin : Z) (a b : list (Z * level)) :
  last_write pin (a ++ b)
  = match last_write pin b with
    | Some v => Some v
    | None => last_write pin a
    end.
Proof.
  induction a as [| [q val] a IH]; simpl.
  - destruct (last_write pin b); reflexivity.
  - rewrite IH. destruct (last_write pin b); reflexivity.
Qed.

Lemma occurrences_app (line : string) (a b : list string) :
  occurrences line (a ++ b) = (occurrences line a + occurrences line b)%nat.
Proof.
  unfold occurrences. rewrite filter_app, length_app. reflexivity.
Qed.

(** ** The actuation primitives *)

(** C8: in both sketches, from every board state, StopAllMotors writes HIGH
    to the door enable pin and then to the plate enable pin and nothing
    else: both enable pins end HIGH, every other pin (the two direction
    pins, the relay pin) keeps its level, and the globals (the relay state
    flag among them) keep their values. *)
Theorem StopAllMotors_disables_and_frames :
  (forall s : Station.state,
     let s' := exec Station.StopAllMotors s in
     pin_writes (io Station.StopAllMotors s)
       = [(Station.DOOR_ENABLE_PIN, HIGH); (Station.PLATE_ENABLE_PIN, HIGH)]
     /\ pins s' Station.DOOR_ENABLE_PIN = HIGH
     /\ pins s' Station.PLATE_ENABLE_PIN = HIGH
     /\ pins s' Station.DOOR_DIRECTION_PIN = pins s Station.DOOR_DIRECTION_PIN
     /\ pins s' Station.PLATE_DIRECTION_PIN = pins s Station.PLATE_DIRECTION_PIN
     /\ (forall pin,
           pins s' pin
           = if (pin =? Station.DOOR_ENABLE_PIN)
                || (pin =? Station.PLATE_ENABLE_PIN)
             then HIGH else pins s pin))
  /\
  (forall s : RosStation.state,
     let s' := exec RosStation.StopAllMotors s in
     pin_writes (io RosStation.StopAllMotors s)
       = [(RosStation.DOOR_ENABLE_PIN, HIGH);
          (RosStation.PLATE_ENABLE_PIN, HIGH)]
     /\ pins s' RosStation.DOOR_ENABLE_PIN = HIGH
     /\ pins s' RosStation.PLATE_ENABLE_PIN = HIGH
     /\ pins s' RosStation.DOOR_DIRECTION_PIN
        = pins s RosStation.DOOR_DIRECTION_PIN
     /\ pins s' RosStation.PLATE_DIRECTION_PIN
        = pins s RosStation.PLATE_DIRECTION_PIN
     /\ pins s' RosStation.WPT_RELAY_PIN = pins s RosStation.WPT_RELAY_PIN
     /\ globals s' = globals s
     /\ (forall pin,
           pins s' pin
           = if (pin =? RosStation.DOOR_ENABLE_PIN)
                || (pin =? RosStation.PLATE_ENABLE_PIN)
             then HIGH else pins s pin)).
Proof.
  split; intros s s'; subst s'; repeat split; intros pin; cbn; unfold upd.
  - destruct (pin =? Station.PLATE_ENABLE_PIN),
             (pin =? Station.DOOR_ENABLE_PIN); reflexivity.
  - destruct (pin =? RosStation.PLATE_ENABLE_PIN),
             (pin =? RosStation.DOOR_ENABLE_PIN); reflexivity.
Qed.

(** ** The timed sequences *)

(** C5: from every board state at time [t], TakeOffSequence performs
    exactly four I/O operations: the two pin writes of OpenDoor at [t],
    then the two pin writes of ExtendPlate at [t + DOOR_TIME], and returns
    at [t + DOOR_TIME + PLATE_TIME], with DOOR_TIME = 25000 ms and
    PLATE_TIME = 45000 ms. *)
Theorem TakeOffSequence_timeline (s : RosStation.state) :
  let t := elapsed s in
  io RosStation.TakeOffSequence s
    = [ (t, DigitalWrite RosStation.DOOR_DIRECTION_PIN LOW);
        (t, DigitalWrite RosStation.DOOR_ENABLE_PIN LOW);
        (t + 25000, DigitalWrite RosStation.PLATE_DIRECTION_PIN LOW);
        (t + 25000, DigitalWrite RosStation.PLATE_ENABLE_PIN LOW) ]
  /\ io RosStation.TakeOffSequence s
     = io RosStation.OpenDoor s
       ++ io RosStation.ExtendPlate
            (exec (RosStation.OpenDoor ;; delay RosStation.DOOR_TIME) s)
  /\ elapsed (exec RosStation.TakeOffSequence s) = t + 25000 + 45000
  /\ RosStation.DOOR_TIME = 25000
  /\ RosStation.PLATE_TIME = 45000.
Proof.
  cbn. repeat split; reflexivity.
Qed.

(** C6: from every board state at time [t], LandingSequence performs
    exactly four I/O operations: the two pin writes of RetractPlate at
    [t], then the two pin writes of CloseDoor at [t + PLATE_TIME], and
    returns at [t + PLATE_TIME + DOOR_TIME], with PLATE_TIME = 45000 ms
    and DOOR_TIME = 25000 ms. *)
Theorem LandingSequence_timeline (s : RosStation.state) :
  let t := elapsed s in
  io RosStation.LandingSequence s
    = [ (t, DigitalWrite RosStation.PLATE_DIRECTION_PIN HIGH);
        (t, DigitalWrite RosStation.PLATE_ENABLE_PIN LOW);
        (t + 45000, DigitalWrite RosStation.DOOR_DIRECTION_PIN HIGH);
        (t + 45000, DigitalWrite RosStation.DOOR_ENABLE_PIN LOW) ]
  /\ io RosStation.LandingSequence s
     = io RosStation.RetractPlate s
       ++ io RosStation.CloseDoor
            (exec (RosStation.RetractPlate ;; delay RosStation.PLATE_TIME) s)
  /\ elapsed (exec RosStation.LandingSequence s) = t + 45000 + 25000
  /\ RosStation.PLATE_TIME = 45000
  /\ RosStation.DOOR_TIME = 25000.
Proof.
  cbn. repeat split; reflexivity.
Qed.

(** ** The sensor guards of the single-channel sketch *)

(** What the dispatcher makes of command A: one log line, then ExtendPlate
    under the door snapshot. *)
Lemma dispatch_A_unfold (s : Station.state) :
  Station.dispatch "A" s
  = (Serial_println "Extend Plate" ;;
     when (isDoorClosed s) Station.ExtendPlate) s.
Proof. reflexivity. Qed.

(** What the dispatcher makes of command G: one log line, then OpenDoor
    under the plate snapshot and ExtendPlate under the door snapshot, both
    snapshots taken before the switch. *)
Lemma dispatch_G_unfold (s : Station.state) :
  Station.dispatch "G" s
  = (Serial_println "Take Off Sequence" ;;
     when (isPlateIn s)
       (Station.OpenDoor ;;
        when (isDoorClosed s) Station.ExtendPlate)) s.
Proof. reflexivity. Qed.

(** C9: dispatching A while the door photo sensor reads HIGH writes no pin
    and leaves every output level as it was; dispatching A while it reads
    LOW performs the two pin writes of ExtendPlate (plate direction LOW,
    the extend polarity, then plate enable LOW) and changes no other pin. *)
Theorem dispatch_A_door_guard (s : Station.state) :
  (inputs s Station.DOOR_PHOTO_PIN = HIGH ->
     pin_writes (io (Station.dispatch "A") s) = []
     /\ pins (exec (Station.dispatch "A") s) = pins s)
  /\
  (inputs s Station.DOOR_PHOTO_PIN = LOW ->
     pin_writes (io (Station.dispatch "A") s)
       = [(Station.PLATE_DIRECTION_PIN, LOW); (Station.PLATE_ENABLE_PIN, LOW)]
     /\ pin_writes (io (Station.dispatch "A") s)
        = pin_writes (io Station.ExtendPlate s)
     /\ pins (exec (Station.dispatch "A") s) Station.PLATE_DIRECTION_PIN = LOW
     /\ pins (exec (Station.dispatch "A") s) Station.PLATE_ENABLE_PIN = LOW
     /\ pins (exec (Station.dispatch "A") s) Station.DOOR_DIRECTION_PIN
        = pins s Station.DOOR_DIRECTION_PIN
     /\ pins (exec (Station.dispatch "A") s) Station.DOOR_ENABLE_PIN
        = pins s Station.DOOR_ENABLE_PIN).
Proof.
  unfold exec, io. rewrite dispatch_A_unfold. unfold isDoorClosed.
  split; intros Hdoor; rewrite Hdoor; cbn; repeat split.
Qed.

(** C9, on a board whose door sensor reads HIGH and one where it reads LOW. *)
Lemma dispatch_A_door_guard_witness :
  (pin_writes (io (Station.dispatch "A") door_sensor_high) = []
   /\ pins (exec (Station.dispatch "A") door_sensor_high)
      = pins door_sensor_high)
  /\ pins (exec (Station.dispatch "A") door_sensor_low)
          Station.PLATE_ENABLE_PIN = LOW.
Proof.
  split.
  - apply (proj1 (dispatch_A_door_guard door_sensor_high)). reflexivity.
  - apply (proj2 (dispatch_A_door_guard door_sensor_low)). reflexivity.
Defined.

(** C1, as worded, fails: with the plate retracted and the door open,
    command G opens the door and stops there, where the specification's
    wording (inner guard [isPlateIn]) has ExtendPlate follow. *)
Lemma takeoff_inner_guard_counterexample :
  isPlateIn plate_in_door_open = true
  /\ isDoorClosed plate_in_door_open = false
  /\ pin_writes (io (Station.dispatch "G") plate_in_door_open)
     = [(Station.DOOR_DIRECTION_PIN, LOW); (Station.DOOR_ENABLE_PIN, LOW)]
  /\ pin_writes (io (takeoff_as_specified true) plate_in_door_open)
     = [(Station.DOOR_DIRECTION_PIN, LOW); (Station.DOOR_ENABLE_PIN, LOW);
        (Station.PLATE_DIRECTION_PIN, LOW); (Station.PLATE_ENABLE_PIN, LOW)]
  /\ ~ takeoff_inner_guard_is_plate_sensor.
Proof.
  repeat split.
  intros Hclaim. specialize (Hclaim plate_in_door_open).
  vm_compute in Hclaim. discriminate Hclaim.
Qed.

(** C1, amended: command G logs one line and then, under the outer guard
    [isPlateIn], invokes OpenDoor and then, if [isDoorClosed] per the same
    snapshot taken before the dispatch, ExtendPlate; if the outer guard
    fails, no pin is written and every output level stays as it was. *)
Theorem dispatch_G_guards (s : Station.state) :
  pin_writes (io (Station.dispatch "G") s)
  = (if isPlateIn s
     then [(Station.DOOR_DIRECTION_PIN, LOW); (Station.DOOR_ENABLE_PIN, LOW)]
          ++ (if isDoorClosed s
              then [(Station.PLATE_DIRECTION_PIN, LOW);
                    (Station.PLATE_ENABLE_PIN, LOW)]
              else [])
     else [])
  /\ pin_writes (io (Station.dispatch "G") s)
     = (if isPlateIn s
        then pin_writes (io Station.OpenDoor s)
             ++ (if isDoorClosed s
                 then pin_writes
                        (io Station.ExtendPlate (exec Station.OpenDoor s))
                 else [])
        else [])
  /\ exec (Station.dispatch "G") s
     = (if isPlateIn s
        then exec (Station.OpenDoor ;;
                   when (isDoorClosed s) Station.ExtendPlate) s
        else s)
  /\ log_lines (io (Station.dispatch "G") s) = ["Take Off Sequence"%string].
Proof.
  unfold exec, io. rewrite dispatch_G_unfold.
  destruct (isPlateIn s), (isDoorClosed s); cbn; repeat split.
Qed.

(** ** Bytes outside the alphabets *)

(** The alphabets are the case labels of the three switches. *)
Lemma alphabets_are_case_labels :
  map fst RosStation.ros_cases = channel_A_alphabet
  /\ (forall c, In c (map fst RosStation.web_cases)
                <-> In c channel_B_alphabet)
  /\ (forall door plate,
        map fst (Station.cases door plate) = single_channel_alphabet).
Proof.
  split; [reflexivity | split; [| reflexivity]].
  intros c. simpl. tauto.
Qed.

(** The single-channel dispatcher is its switch, run under the two
    snapshots of the board it starts from. *)
Lemma dispatch_exec (c : ascii) (s : Station.state) :
  exec (Station.dispatch c) s
  = exec (switch c (Station.cases (isDoorClosed s) (isPlateIn s))
            (Serial_println "Unknown command")) s.
Proof. reflexivity. Qed.

Lemma dispatch_io (c : ascii) (s : Station.state) :
  io (Station.dispatch c) s
  = io (switch c (Station.cases (isDoorClosed s) (isPlateIn s))
          (Serial_println "Unknown command")) s.
Proof. reflexivity. Qed.

(** C4: a byte outside a listener's alphabet leaves the whole board state
    (every pin level, every global, the relay state flag among them) as it
    was, and the only I/O of its dispatch is one log line: no pin write, no
    server write, no flush.  This holds for the ROS and the web dispatcher
    of the dual-channel sketch and for the dispatcher of the single-channel
    sketch. *)
Theorem unknown_command_only_logs (c : ascii) :
  (~ In c channel_A_alphabet ->
     forall s : RosStation.state,
       exec (RosStation.ros_dispatch c) s = s
       /\ io (RosStation.ros_dispatch c) s
          = [(elapsed s, SerialPrintln "Unknown ROS command")])
  /\
  (~ In c channel_B_alphabet ->
     forall s : RosStation.state,
       exec (RosStation.web_dispatch c) s = s
       /\ io (RosStation.web_dispatch c) s
          = [(elapsed s, SerialPrintln "Unknown Web command")])
  /\
  (~ In c single_channel_alphabet ->
     forall s : Station.state,
       exec (Station.dispatch c) s = s
       /\ io (Station.dispatch c) s
          = [(elapsed s, SerialPrintln "Unknown command")]).
Proof.
  destruct alphabets_are_case_labels as [HA [HB HS]].
  split; [| split]; intros Hout s.
  - unfold RosStation.ros_dispatch.
    rewrite switch_default by (rewrite HA; assumption).
    split; reflexivity.
  - unfold RosStation.web_dispatch.
    rewrite switch_default by (rewrite HB; assumption).
    split; reflexivity.
  - rewrite dispatch_exec, dispatch_io.
    rewrite switch_default by (rewrite HS; assumption).
    split; reflexivity.
Qed.

(** C4 at the byte 'q', which is in none of the alphabets. *)
Lemma unknown_command_only_logs_witness :
  io (RosStation.ros_dispatch "q") cold_board
    = [(0, SerialPrintln "Unknown ROS command")]
  /\ io (RosStation.web_dispatch "q") cold_board
     = [(0, SerialPrintln "Unknown Web command")]
  /\ exec (Station.dispatch "q") door_sensor_low = door_sensor_low.
Proof.
  assert (HA : ~ In "q"%char channel_A_alphabet)
    by (simpl; intuition discriminate).
  assert (HB : ~ In "q"%char channel_B_alphabet)
    by (simpl; intuition discriminate).
  assert (HS : ~ In "q"%char single_channel_alphabet)
    by (simpl; intuition discriminate).
  destruct (unknown_command_only_logs "q") as [Hros [Hweb Hsingle]].
  split; [| split].
  - apply (Hros HA cold_board).
  - apply (Hweb HB cold_board).
  - apply (Hsingle HS door_sensor_low).
Defined.

(** ** Acknowledgments *)

(** The ROS dispatcher's server writes do not depend on the board state. *)
Lemma ros_dispatch_acks_state_free (c : ascii) (s s' : RosStation.state) :
  server_writes (io (RosStation.ros_dispatch c) s)
  = server_writes (io (RosStation.ros_dispatch c) s').
Proof.
  revert s s'. unfold RosStation.ros_dispatch.
  apply switch_cover with
    (P := fun p : prog RosStation.sketch_globals unit =>
            forall s s', server_writes (io p s) = server_writes (io p s')).
  - repeat constructor.
  - reflexivity.
Qed.

(** The web dispatcher never writes to a server. *)
Lemma web_dispatch_no_acks (c : ascii) (s : RosStation.state) :
  server_writes (io (RosStation.web_dispatch c) s) = [].
Proof.
  revert s. unfold RosStation.web_dispatch.
  apply switch_cover with
    (P := fun p : prog RosStation.sketch_globals unit =>
            forall s, server_writes (io p s) = []).
  - repeat constructor.
  - reflexivity.
Qed.

(** ** The shape of a pass of the dual-channel loop *)

(** With a client on either server the pass greets, serves ROS, serves the
    web and drives the relay, in this order. *)
Lemma loop_present (ros_client web_client : PhpocClient)
      (s : RosStation.state) :
  client_present (ros_client, web_client) = true ->
  let s0 := exec RosStation.greet_new_client s in
  let s1 := exec (serve_ros ros_client) s0 in
  let s2 := exec (serve_web web_client) s1 in
  exec (RosStation.loop ros_client web_client) s
    = exec RosStation.drive_relay s2
  /\ io (RosStation.loop ros_client web_client) s
     = io RosStation.greet_new_client s
       ++ io (serve_ros ros_client) s0
       ++ io (serve_web web_client) s1
       ++ io RosStation.drive_relay s2.
Proof.
  unfold client_present, RosStation.loop; simpl fst; simpl snd.
  intros ->. split; [reflexivity |].
  unfold when at 1. rewrite !io_bind, <- !app_assoc. reflexivity.
Qed.

(** With no client the pass only drives the relay. *)
Lemma loop_absent (ros_client web_client : PhpocClient)
      (s : RosStation.state) :
  client_present (ros_client, web_client) = false ->
  exec (RosStation.loop ros_client web_client) s
    = exec RosStation.drive_relay s
  /\ io (RosStation.loop ros_client web_client) s
     = io RosStation.drive_relay s.
Proof.
  unfold client_present, RosStation.loop; simpl fst; simpl snd.
  intros ->. split; reflexivity.
Qed.

(** The relay step keeps the globals and writes the relay pin once, with
    the level the flag asks for. *)
Lemma drive_relay_spec (s : RosStation.state) :
  let level_asked :=
    if RosStation.wirelessPowerState (globals s) =? 0 then HIGH else LOW in
  globals (exec RosStation.drive_relay s) = globals s
  /\ io RosStation.drive_relay s
     = [(elapsed s, DigitalWrite RosStation.WPT_RELAY_PIN level_asked)]
  /\ forall pin,
       pins (exec RosStation.drive_relay s) pin
       = if pin =? RosStation.WPT_RELAY_PIN then level_asked
         else pins s pin.
Proof.
  unfold exec, io, RosStation.drive_relay, bind, get_globals; cbn.
  destruct (RosStation.wirelessPowerState (globals s) =? 0);
    repeat split.
Qed.

(** ** The relay loop *)

Lemma drive_relay_establishes (s : RosStation.state) :
  relay_matches_flag (exec RosStation.drive_relay s).
Proof.
  destruct (drive_relay_spec s) as [Hg [_ Hp]].
  unfold relay_matches_flag. rewrite Hg, Hp, Z.eqb_refl.
  destruct (Z.eqb_spec (RosStation.wirelessPowerState (globals s)) 0)
    as [E | E]; intuition congruence.
Qed.

Lemma loop_establishes (ros_client web_client : PhpocClient)
      (s : RosStation.state) :
  relay_matches_flag (exec (RosStation.loop ros_client web_client) s).
Proof.
  destruct (client_present (ros_client, web_client)) eqn:E.
  - destruct (loop_present ros_client web_client s E) as [-> _].
    apply drive_relay_establishes.
  - destruct (loop_absent ros_client web_client s E) as [-> _].
    apply drive_relay_establishes.
Qed.

Lemma loops_preserve (polls : list (PhpocClient * PhpocClient)) :
  forall s : RosStation.state,
    relay_matches_flag s ->
    relay_matches_flag (exec (RosStation.loops polls) s).
Proof.
  induction polls as [| [ros_client web_client] rest IH]; intros s Hs.
  - exact Hs.
  - simpl RosStation.loops. rewrite exec_bind.
    apply IH, loop_establishes.
Qed.

(** C3: at the end of every pass of the dual-channel loop, from any board
    state and whatever the two clients sent or did not send, the WPT relay
    pin is HIGH if and only if wirelessPowerState is 0, and LOW if and only
    if it is not; the same holds after setup and after every history of
    passes that follows it. *)
Theorem relay_pin_follows_flag :
  (forall (ros_client web_client : PhpocClient) (s : RosStation.state),
     relay_matches_flag (exec (RosStation.loop ros_client web_client) s))
  /\
  (forall (polls : list (PhpocClient * PhpocClient))
          (pins0 inputs0 : Z -> level),
     relay_matches_flag
       (exec (RosStation.main polls) (RosStation.power_on pins0 inputs0))).
Proof.
  split.
  - apply loop_establishes.
  - intros polls pins0 inputs0.
    unfold RosStation.main. rewrite exec_bind.
    apply loops_preserve.
    unfold relay_matches_flag; cbn. split; split; intros; congruence.
Qed.

(** ** Acknowledgments over a whole pass *)

(** The server writes of a pass are those of serving the ROS client. *)
Lemma loop_acks (ros_client web_client : PhpocClient)
      (s : RosStation.state) :
  server_writes (io (RosStation.loop ros_client web_client) s)
  = server_writes (io (serve_ros ros_client) s).
Proof.
  assert (Hgreet : forall m, server_writes
                               (io RosStation.greet_new_client m) = []).
  { intros m.
    unfold io, RosStation.greet_new_client, bind, get_globals; cbn.
    destruct (RosStation.alreadyConnected (globals m)); reflexivity. }
  assert (Hrelay : forall m, server_writes (io RosStation.drive_relay m) = []).
  { intros m. destruct (drive_relay_spec m) as [_ [-> _]]. reflexivity. }
  assert (Hweb : forall m, server_writes (io (serve_web web_client) m) = []).
  { intros m. unfold serve_web.
    destruct (0 <? client_available web_client);
      [apply web_dispatch_no_acks | reflexivity]. }
  assert (Hros : forall m m', server_writes (io (serve_ros ros_client) m)
                              = server_writes (io (serve_ros ros_client) m')).
  { intros m m'. unfold serve_ros.
    destruct (0 <? client_available ros_client);
      [apply ros_dispatch_acks_state_free | reflexivity]. }
  destruct (client_present (ros_client, web_client)) eqn:E.
  - destruct (loop_present ros_client web_client s E) as [_ ->].
    rewrite !server_writes_app, Hgreet, Hweb, Hrelay, app_nil_r.
    apply Hros.
  - destruct (loop_absent ros_client web_client s E) as [_ ->].
    rewrite Hrelay.
    unfold client_present in E; simpl in E.
    apply orb_false_iff in E. destruct E as [E _].
    unfold serve_ros, client_available. rewrite E. reflexivity.
Qed.

(** C7: a byte of the Channel-A alphabet dispatched by the ROS dispatcher
    makes exactly one server write, its uppercase equivalent on the ROS
    server; the web dispatcher makes no server write for any byte; 'a' on
    Channel A performs the pin writes of ExtendPlate and acknowledges 'A',
    'A' on Channel B performs the pin writes of ExtendPlate and
    acknowledges nothing; and the server writes of a whole pass of the
    loop are those of the ROS byte's dispatch, if the ROS client has a
    byte pending, and none otherwise, whatever the web client sent. *)
Theorem ros_acknowledges_in_uppercase (c : ascii) (s : RosStation.state) :
  (In c channel_A_alphabet ->
     server_writes (io (RosStation.ros_dispatch c) s)
     = [(RosStation.ros_server, to_upper c)])
  /\ server_writes (io (RosStation.web_dispatch c) s) = []
  /\ pin_writes (io (RosStation.ros_dispatch "a") s)
     = pin_writes (io RosStation.ExtendPlate s)
  /\ server_writes (io (RosStation.ros_dispatch "a") s)
     = [(RosStation.ros_server, "A"%char)]
  /\ pin_writes (io (RosStation.web_dispatch "A") s)
     = pin_writes (io RosStation.ExtendPlate s)
  /\ server_writes (io (RosStation.web_dispatch "A") s) = []
  /\ (forall ros_client web_client : PhpocClient,
        server_writes (io (RosStation.loop ros_client web_client) s)
        = if 0 <? client_available ros_client
          then server_writes
                 (io (RosStation.ros_dispatch (client_read ros_client)) s)
          else []).
Proof.
  split; [| split; [apply web_dispatch_no_acks | repeat split]].
  - intros Hin. simpl in Hin.
    repeat (destruct Hin as [<- | Hin]; [reflexivity |]).
    destruct Hin.
  - intros ros_client web_client. rewrite loop_acks. unfold serve_ros.
    destruct (0 <? client_available ros_client); reflexivity.
Qed.

(** C7 at the take-off byte 'z', acknowledged with 'Z' once the sequence
    has run. *)
Lemma ros_acknowledges_in_uppercase_witness :
  server_writes (io (RosStation.ros_dispatch "z") cold_board)
  = [(23, "Z"%char)].
Proof.
  apply (proj1 (ros_acknowledges_in_uppercase "z" cold_board)).
  simpl. tauto.
Defined.

(** ** The connection flag *)

Lemma quiet_when (c : bool) (body : prog RosStation.sketch_globals unit) :
  quiet body -> quiet (when c body).
Proof.
  intros Hbody. destruct c; [exact Hbody |].
  intros s. repeat split.
Qed.

Lemma quiet_ros_dispatch (c : ascii) : quiet (RosStation.ros_dispatch c).
Proof.
  unfold RosStation.ros_dispatch.
  apply switch_cover with
    (P := fun p : prog RosStation.sketch_globals unit => quiet p).
  - repeat constructor.
  - intros s. repeat split.
Qed.

Lemma quiet_web_dispatch (c : ascii) : quiet (RosStation.web_dispatch c).
Proof.
  unfold RosStation.web_dispatch.
  apply switch_cover with
    (P := fun p : prog RosStation.sketch_globals unit => quiet p).
  - repeat constructor.
  - intros s. repeat split.
Qed.

Lemma quiet_drive_relay : quiet RosStation.drive_relay.
Proof.
  intros s. destruct (drive_relay_spec s) as [Hg [Hio _]].
  rewrite Hg, Hio. repeat split.
Qed.

Lemma quiet_setup : quiet RosStation.setup.
Proof. intros s. repeat split. Qed.

(** Greeting happens when the flag is down, and raises it. *)
Lemma greet_new_client_spec (s : RosStation.state) :
  let first := negb (RosStation.alreadyConnected (globals s)) in
  RosStation.alreadyConnected
    (globals (exec RosStation.greet_new_client s)) = true
  /\ flushes (io RosStation.greet_new_client s)
     = (if first then [RosStation.ros_server; RosStation.web_server]
        else [])
  /\ occurrences greeting (log_lines (io RosStation.greet_new_client s))
     = (if first then 1 else 0)%nat.
Proof.
  unfold exec, io, RosStation.greet_new_client, bind, get_globals; cbn.
  destruct (RosStation.alreadyConnected (globals s)) eqn:E;
    cbn; repeat split; assumption.
Qed.

(** One pass: the flag is raised by a client and never lowered; the pass
    flushes and greets exactly when it raises the flag. *)
Lemma loop_latches (ros_client web_client : PhpocClient)
      (s : RosStation.state) :
  let poll := (ros_client, web_client) in
  RosStation.alreadyConnected
    (globals (exec (RosStation.loop ros_client web_client) s))
  = RosStation.alreadyConnected (globals s) || client_present poll
  /\ flushes (io (RosStation.loop ros_client web_client) s)
     = (if greets s poll
        then [RosStation.ros_server; RosStation.web_server] else [])
  /\ occurrences greeting
       (log_lines (io (RosStation.loop ros_client web_client) s))
     = (if greets s poll then 1 else 0)%nat.
Proof.
  intros poll. unfold greets. subst poll.
  destruct (client_present (ros_client, web_client)) eqn:E.
  - destruct (loop_present ros_client web_client s E) as [-> ->].
    destruct (greet_new_client_spec s) as [Hflag [Hflush Hlog]].
    set (s0 := exec RosStation.greet_new_client s) in *.
    destruct (quiet_when (0 <? client_available ros_client) _
                (quiet_ros_dispatch (client_read ros_client)) s0)
      as [Rflag [Rflush Rlog]].
    fold (serve_ros ros_client) in Rflag, Rflush, Rlog.
    set (s1 := exec (serve_ros ros_client) s0) in *.
    destruct (quiet_when (0 <? client_available web_client) _
                (quiet_web_dispatch (client_read web_client)) s1)
      as [Wflag [Wflush Wlog]].
    fold (serve_web web_client) in Wflag, Wflush, Wlog.
    set (s2 := exec (serve_web web_client) s1) in *.
    destruct (quiet_drive_relay s2) as [Dflag [Dflush Dlog]].
    rewrite Dflag, Wflag, Rflag, Hflag.
    rewrite !flushes_app, !log_lines_app, !occurrences_app.
    rewrite Dflush, Wflush, Rflush, Hflush, Dlog, Wlog, Rlog, Hlog.
    rewrite orb_true_r, !app_nil_r, !Nat.add_0_r. simpl andb.
    repeat split.
  - destruct (loop_absent ros_client web_client s E) as [-> ->].
    destruct (quiet_drive_relay s) as [Dflag [Dflush Dlog]].
    rewrite Dflag, Dflush, Dlog, orb_false_r. repeat split.
Qed.

(** A history of passes: the flag ends raised if it started raised or some
    pass saw a client, and the greeting is logged once if the flag started
    down and some pass saw a client, never otherwise. *)
Lemma loops_latch (polls : list (PhpocClient * PhpocClient)) :
  forall s : RosStation.state,
    let first :=
      negb (RosStation.alreadyConnected (globals s))
      && existsb client_present polls in
    RosStation.alreadyConnected (globals (exec (RosStation.loops polls) s))
    = RosStation.alreadyConnected (globals s)
      || existsb client_present polls
    /\ flushes (io (RosStation.loops polls) s)
       = (if first then [RosStation.ros_server; RosStation.web_server]
          else [])
    /\ occurrences greeting (log_lines (io (RosStation.loops polls) s))
       = (if first then 1 else 0)%nat.
Proof.
  induction polls as [| [ros_client web_client] rest IH]; intros s first.
  - subst first. simpl existsb. rewrite orb_false_r, andb_false_r.
    repeat split.
  - subst first. simpl RosStation.loops. rewrite exec_bind, io_bind.
    destruct (loop_latches ros_client web_client s) as [Lflag [Lflush Llog]].
    set (s' := exec (RosStation.loop ros_client web_client) s) in *.
    destruct (IH s') as [Iflag [Iflush Ilog]].
    rewrite flushes_app, log_lines_app, occurrences_app.
    rewrite Iflag, Iflush, Ilog, Lflag, Lflush, Llog.
    unfold greets. simpl existsb.
    destruct (RosStation.alreadyConnected (globals s)),
             (client_present (ros_client, web_client)),
             (existsb client_present rest);
      repeat split.
Qed.

(** C2, as worded, fails: after a connect, a disconnect and a reconnect the
    flag is still raised in the pass without clients, the pass in which the
    client is back flushes nothing and logs no greeting, and the three
    passes together log the greeting once. *)
Lemma reconnect_is_not_greeted :
  RosStation.alreadyConnected
    (globals (exec (RosStation.main (firstn 2 reconnect_history))
                cold_board)) = true
  /\ io (RosStation.loop (ros_peer []) no_client)
        (exec (RosStation.main (firstn 2 reconnect_history)) cold_board)
     = [(0, DigitalWrite RosStation.WPT_RELAY_PIN LOW)]
  /\ log_lines
       (io (RosStation.loops reconnect_history)
           (exec RosStation.setup cold_board))
     = [greeting]
  /\ ~ flag_tracks_previous_pass
  /\ ~ every_reconnect_is_greeted.
Proof.
  split; [reflexivity |]. split; [reflexivity |]. split; [reflexivity |].
  split.
  - intros Hclaim.
    specialize (Hclaim no_client no_client
                  (exec (RosStation.loop (ros_peer []) no_client) cold_board)).
    vm_compute in Hclaim. discriminate Hclaim.
  - intros Hclaim.
    specialize (Hclaim (no_client, no_client) (ros_peer [], no_client)
                  (exec (RosStation.loop (ros_peer []) no_client) cold_board)
                  eq_refl eq_refl).
    vm_compute in Hclaim.
    repeat (destruct Hclaim as [Hclaim | Hclaim]; [discriminate Hclaim |]).
    exact Hclaim.
Qed.

(** C2, amended: the dual-channel sketch has one connection flag, and it is
    a latch.  A pass leaves it raised if it was raised or a client is
    present on either server, and the pass flushes both clients and logs
    the greeting exactly when a client is present and the flag was down.
    From power-on, over any history of passes, the flag ends raised exactly
    when some pass saw a client, and the two flushes and the greeting
    happen once in all (in the first such pass), not once per
    connection. *)
Theorem connection_flag_latches :
  (forall (ros_client web_client : PhpocClient) (s : RosStation.state),
     let poll := (ros_client, web_client) in
     RosStation.alreadyConnected
       (globals (exec (RosStation.loop ros_client web_client) s))
     = RosStation.alreadyConnected (globals s) || client_present poll
     /\ flushes (io (RosStation.loop ros_client web_client) s)
        = (if greets s poll
           then [RosStation.ros_server; RosStation.web_server] else [])
     /\ occurrences greeting
          (log_lines (io (RosStation.loop ros_client web_client) s))
        = (if greets s poll then 1 else 0)%nat)
  /\
  (forall (polls : list (PhpocClient * PhpocClient))
          (pins0 inputs0 : Z -> level),
     let boot := RosStation.power_on pins0 inputs0 in
     RosStation.alreadyConnected
       (globals (exec (RosStation.main polls) boot))
     = existsb client_present polls
     /\ flushes (io (RosStation.main polls) boot)
        = (if existsb client_present polls
           then [RosStation.ros_server; RosStation.web_server] else [])
     /\ occurrences greeting (log_lines (io (RosStation.main polls) boot))
        = (if existsb client_present polls then 1 else 0)%nat).
Proof.
  split; [apply loop_latches |].
  intros polls pins0 inputs0 boot.
  unfold RosStation.main. rewrite exec_bind, io_bind.
  destruct (quiet_setup boot) as [Sflag [Sflush Slog]].
  set (s := exec RosStation.setup boot) in *.
  destruct (loops_latch polls s) as [Lflag [Lflush Llog]].
  rewrite flushes_app, log_lines_app, occurrences_app.
  rewrite Lflag, Lflush, Llog, Sflag, Sflush, Slog.
  repeat split.
Qed.

(** ** Pins and pin writes *)

Section PinsFollowWrites.

Context {G : Type}.

Lemma pfw_ret {A} (a : A) : pins_follow_writes (@ret G A a).
Proof. intros s pin. reflexivity. Qed.

Lemma pfw_get_globals : pins_follow_writes (@get_globals G).
Proof. intros s pin. reflexivity. Qed.

Lemma pfw_put_globals (g : G) : pins_follow_writes (put_globals g).
Proof. intros s pin. reflexivity. Qed.

Lemma pfw_delay (ms : Z) : pins_follow_writes (@delay G ms).
Proof. intros s pin. reflexivity. Qed.

Lemma pfw_digitalRead (q : Z) : pins_follow_writes (@digitalRead G q).
Proof. intros s pin. reflexivity. Qed.

Lemma pfw_emit_log (line : string) :
  pins_follow_writes (@Serial_println G line).
Proof. intros s pin. reflexivity. Qed.

Lemma pfw_emit_server_write (port : Z) (c : ascii) :
  pins_follow_writes (@emit G (ServerWrite port c)).
Proof. intros s pin. reflexivity. Qed.

Lemma pfw_emit_flush (port : Z) :
  pins_follow_writes (@emit G (ClientFlush port)).
Proof. intros s pin. reflexivity. Qed.

Lemma pfw_digitalWrite (q : Z) (val : level) :
  pins_follow_writes (@digitalWrite G q val).
Proof.
  intros s pin. unfold exec, io, digitalWrite, upd; simpl.
  destruct (pin =? q); reflexivity.
Qed.

Lemma pfw_bind {A B} (p : prog G A) (k : A -> prog G B) :
  pins_follow_writes p ->
  (forall a, pins_follow_writes (k a)) ->
  pins_follow_writes (bind p k).
Proof.
  intros Hp Hk s pin.
  rewrite exec_bind, io_bind, pin_writes_app, last_write_app.
  rewrite (Hk (value (p s)) (exec p s) pin).
  destruct (last_write pin
              (pin_writes (io (k (value (p s))) (exec p s))));
    [reflexivity | apply Hp].
Qed.

Lemma pfw_when (c : bool) (body : prog G unit) :
  pins_follow_writes body -> pins_follow_writes (when c body).
Proof. destruct c; [trivial | intros _; apply pfw_ret]. Qed.

Lemma pfw_if {A} (c : bool) (p q : prog G A) :
  pins_follow_writes p -> pins_follow_writes q ->
  pins_follow_writes (if c then p else q).
Proof. destruct c; trivial. Qed.

Lemma pfw_switch (c : ascii) (cases : list (ascii * prog G unit))
      (d : prog G unit) :
  Forall (fun kb => pins_follow_writes (snd kb)) cases ->
  pins_follow_writes d ->
  pins_follow_writes (switch c cases d).
Proof. apply switch_cover. Qed.

End PinsFollowWrites.

Create HintDb pfw.

#[local] Hint Resolve pfw_ret pfw_get_globals pfw_put_globals pfw_delay
  pfw_digitalRead pfw_emit_log pfw_emit_server_write pfw_emit_flush
  pfw_digitalWrite pfw_when pfw_if : pfw.

(** Takes a sketch procedure apart along its binds. *)
Ltac pfw_steps :=
  repeat first
    [ apply pfw_bind; [| intros ?]
    | progress auto with pfw
    | progress unfold RosStation.server_write, RosStation.client_flush,
        RosStation.set_wirelessPowerState, RosStation.set_alreadyConnected,
        RosStation.StopAllMotors, RosStation.CloseDoor, RosStation.OpenDoor,
        RosStation.RetractPlate, RosStation.ExtendPlate,
        RosStation.TakeOffSequence, RosStation.LandingSequence,
        RosStation.EnableWirelessPower, RosStation.DisableWirelessPower ].

Lemma pfw_ros_dispatch (c : ascii) :
  pins_follow_writes (RosStation.ros_dispatch c).
Proof.
  apply pfw_switch; [| auto with pfw].
  unfold RosStation.ros_cases. repeat constructor; simpl snd; pfw_steps.
Qed.

Lemma pfw_web_dispatch (c : ascii) :
  pins_follow_writes (RosStation.web_dispatch c).
Proof.
  apply pfw_switch; [| auto with pfw].
  unfold RosStation.web_cases. repeat constructor; simpl snd; pfw_steps.
Qed.

(** The web dispatcher never writes the relay pin. *)
Lemma web_dispatch_spares_relay (c : ascii) (s : RosStation.state) :
  last_write RosStation.WPT_RELAY_PIN
    (pin_writes (io (RosStation.web_dispatch c) s)) = None.
Proof.
  revert s. unfold RosStation.web_dispatch.
  apply switch_cover with
    (P := fun p : prog RosStation.sketch_globals unit =>
            forall s,
              last_write RosStation.WPT_RELAY_PIN (pin_writes (io p s))
              = None).
  - repeat constructor.
  - reflexivity.
Qed.

(** ** Two pending bytes in one pass *)

(** C10: in a pass of the dual-channel loop in which both clients are
    connected and have a byte pending, the I/O of the pass is the greeting
    (if any), then everything the ROS byte's dispatch does, then everything
    the web byte's dispatch does, then the relay write; and every pin the
    web byte's dispatch writes holds, at the end of the pass, the last
    level that dispatch wrote to it, whatever the ROS byte's dispatch wrote
    to it before. *)
Theorem ros_before_web_last_write_wins
        (ca cb : ascii) (ra rb : list ascii) (s : RosStation.state) :
  let ros_client := ros_peer (ca :: ra) in
  let web_client := web_peer (cb :: rb) in
  let s0 := exec RosStation.greet_new_client s in
  let s1 := exec (RosStation.ros_dispatch ca) s0 in
  let s2 := exec (RosStation.web_dispatch cb) s1 in
  io (RosStation.loop ros_client web_client) s
    = io RosStation.greet_new_client s
      ++ io (RosStation.ros_dispatch ca) s0
      ++ io (RosStation.web_dispatch cb) s1
      ++ io RosStation.drive_relay s2
  /\ exec (RosStation.loop ros_client web_client) s
     = exec RosStation.drive_relay s2
  /\ forall pin v,
       last_write pin (pin_writes (io (RosStation.web_dispatch cb) s1))
         = Some v ->
       pins (exec (RosStation.loop ros_client web_client) s) pin = v.
Proof.
  intros ros_client web_client s0 s1 s2.
  destruct (loop_present ros_client web_client s eq_refl) as [Hexec Hio].
  assert (Hros : serve_ros ros_client = RosStation.ros_dispatch ca).
  { unfold serve_ros, client_available, ros_client, ros_peer; simpl.
    destruct (0 <? Z.pos (Pos.of_succ_nat (List.length ra))) eqn:E;
      [reflexivity | apply Z.ltb_ge in E; lia]. }
  assert (Hweb : serve_web web_client = RosStation.web_dispatch cb).
  { unfold serve_web, client_available, web_client, web_peer; simpl.
    destruct (0 <? Z.pos (Pos.of_succ_nat (List.length rb))) eqn:E;
      [reflexivity | apply Z.ltb_ge in E; lia]. }
  rewrite Hros, Hweb in Hexec, Hio.
  fold s0 in Hexec, Hio. fold s1 in Hexec, Hio. fold s2 in Hexec, Hio.
  split; [exact Hio | split; [exact Hexec |]].
  intros pin v Hlast. rewrite Hexec.
  destruct (drive_relay_spec s2) as [_ [_ Hpins]]. rewrite Hpins.
  destruct (Z.eqb_spec pin RosStation.WPT_RELAY_PIN) as [-> | _].
  - rewrite web_dispatch_spares_relay in Hlast. discriminate Hlast.
  - unfold s2. rewrite (pfw_web_dispatch cb s1 pin), Hlast. reflexivity.
Qed.

(** C10 with ExtendPlate ('a') pending on ROS and RetractPlate ('D')
    pending on the web: the plate direction pin ends HIGH, the retract
    polarity. *)
Lemma ros_before_web_last_write_wins_witness :
  pins (exec (RosStation.loop (ros_peer ["a"%char]) (web_peer ["D"%char]))
          cold_board)
       RosStation.PLATE_DIRECTION_PIN = HIGH.
Proof.
  apply (proj2 (proj2 (ros_before_web_last_write_wins
                         "a" "D" [] [] cold_board))).
  reflexivity.
Defined.


(** * Beyond the claims *)

(** ** Station.cpp: the remaining commands and the interlocks *)

(** X1: Command E closes the door only while the plate sensor reads LOW: with
    the sensor HIGH it writes no pin and leaves every output level as it
    was; with the sensor LOW it performs the two pin writes of CloseDoor
    (door direction HIGH, then door enable LOW) and leaves the plate pins
    alone. *)
Theorem dispatch_E_plate_guard (s : Station.state) :
  (inputs s Station.PLATE_PHOTO_PIN = HIGH ->
     pin_writes (io (Station.dispatch "E") s) = []
     /\ pins (exec (Station.dispatch "E") s) = pins s)
  /\
  (inputs s Station.PLATE_PHOTO_PIN = LOW ->
     pin_writes (io (Station.dispatch "E") s)
       = [(Station.DOOR_DIRECTION_PIN, HIGH); (Station.DOOR_ENABLE_PIN, LOW)]
     /\ pins (exec (Station.dispatch "E") s) Station.DOOR_DIRECTION_PIN = HIGH
     /\ pins (exec (Station.dispatch "E") s) Station.DOOR_ENABLE_PIN = LOW
     /\ pins (exec (Station.dispatch "E") s) Station.PLATE_DIRECTION_PIN
        = pins s Station.PLATE_DIRECTION_PIN
     /\ pins (exec (Station.dispatch "E") s) Station.PLATE_ENABLE_PIN
        = pins s Station.PLATE_ENABLE_PIN).
Proof.
  rewrite dispatch_exec, dispatch_io. unfold isPlateIn.
  split; intros Hplate; rewrite Hplate; cbn; repeat split.
Qed.

(** X1 on a board whose plate sensor reads HIGH and one where it reads
    LOW. *)
Lemma dispatch_E_plate_guard_witness :
  pin_writes (io (Station.dispatch "E") plate_sensor_high) = []
  /\ pins (exec (Station.dispatch "E") door_sensor_low)
          Station.DOOR_DIRECTION_PIN = HIGH.
Proof.
  split.
  - apply (proj1 (dispatch_E_plate_guard plate_sensor_high)). reflexivity.
  - apply (proj2 (dispatch_E_plate_guard door_sensor_low)). reflexivity.
Defined.

(** X2: Command H always starts retracting the plate; it goes on to CloseDoor
    only if the plate snapshot was LOW, and on to StopAllMotors only if the
    door snapshot was LOW as well.  So the plate motor ends stopped exactly
    when both snapshots were LOW, and the door pins are untouched when the
    plate snapshot was HIGH. *)
Theorem dispatch_H_stages (s : Station.state) :
  let s' := exec (Station.dispatch "H") s in
  pin_writes (io (Station.dispatch "H") s)
  = [(Station.PLATE_DIRECTION_PIN, HIGH); (Station.PLATE_ENABLE_PIN, LOW)]
    ++ (if isPlateIn s
        then [(Station.DOOR_DIRECTION_PIN, HIGH);
              (Station.DOOR_ENABLE_PIN, LOW)]
             ++ (if isDoorClosed s
                 then [(Station.DOOR_ENABLE_PIN, HIGH);
                       (Station.PLATE_ENABLE_PIN, HIGH)]
                 else [])
        else [])
  /\ pins s' Station.PLATE_DIRECTION_PIN = HIGH
  /\ pins s' Station.PLATE_ENABLE_PIN
     = (if isPlateIn s && isDoorClosed s then HIGH else LOW)
  /\ pins s' Station.DOOR_DIRECTION_PIN
     = (if isPlateIn s then HIGH else pins s Station.DOOR_DIRECTION_PIN)
  /\ pins s' Station.DOOR_ENABLE_PIN
     = (if isPlateIn s
        then if isDoorClosed s then HIGH else LOW
        else pins s Station.DOOR_ENABLE_PIN).
Proof.
  intros s'. subst s'. rewrite dispatch_exec, dispatch_io.
  destruct (isPlateIn s), (isDoorClosed s); cbn; repeat split.
Qed.

(** Whatever the byte and the sensors, the single-channel dispatcher logs
    exactly one line, writes motor pins only, never writes to the server or
    flushes, and takes no time. *)
Lemma footprint_dispatch (c : ascii) :
  single_channel_footprint (Station.dispatch c).
Proof.
  assert (Hswitch : forall door plate,
             single_channel_footprint
               (switch c (Station.cases door plate)
                  (Serial_println "Unknown command"))).
  { intros door plate.
    apply switch_cover with (P := single_channel_footprint).
    - destruct door, plate; repeat constructor.
    - intros s. repeat split. }
  intros s. rewrite dispatch_exec, dispatch_io. apply Hswitch.
Qed.

(** A pass of the single-channel loop either does nothing or dispatches the
    oldest unread byte. *)
Lemma Station_loop_cases (client : PhpocClient) (s : Station.state) :
  Station.loop client s = ret tt s
  \/ Station.loop client s = Station.dispatch (client_read client) s.
Proof.
  unfold Station.loop, when.
  destruct (connected client); [| left; reflexivity].
  destruct (0 <? client_available client); [right | left]; reflexivity.
Qed.

(** A connected client with a byte to read has a positive [available]. *)
Lemma pending_byte_available (c : ascii) (rest : list ascii) :
  (0 <? client_available (Client true (c :: rest))) = true.
Proof.
  unfold client_available; simpl connected; simpl rx.
  apply Z.ltb_lt. simpl List.length. lia.
Qed.

(** X4: Whatever the byte and the sensor levels, dispatching a byte in the
    single-channel sketch logs exactly one line, writes only motor pins
    (4 to 7), writes nothing to the server, flushes nothing, and takes no
    time; a whole pass of the loop, for any client, does at most that. *)
Theorem single_channel_footprint_of_a_pass
        (c : ascii) (client : PhpocClient) (s : Station.state) :
  single_channel_footprint (Station.dispatch c)
  /\ (List.length (log_lines (io (Station.loop client) s)) <= 1)%nat
  /\ server_writes (io (Station.loop client) s) = []
  /\ flushes (io (Station.loop client) s) = []
  /\ only_pins motor_pins (pin_writes (io (Station.loop client) s)) = true
  /\ elapsed (exec (Station.loop client) s) = elapsed s
  /\ inputs (exec (Station.loop client) s) = inputs s.
Proof.
  split; [apply footprint_dispatch |].
  unfold exec, io.
  destruct (Station_loop_cases client s) as [-> | ->].
  - cbn. repeat split. lia.
  - destruct (footprint_dispatch (client_read client) s)
      as [Hlog [Hsrv [Hfl [Hpins [Ht Hin]]]]].
    unfold exec, io in *. rewrite Hlog. repeat split; assumption || lia.
Qed.

(** X5: A pass of the single-channel loop dispatches the oldest unread byte of
    a connected client and ignores the bytes behind it; with a connected
    client that sent nothing, or with no connected client whatever bytes
    the client object holds, the pass performs no I/O and leaves the board
    as it was. *)
Theorem single_channel_pass_takes_one_byte
        (c : ascii) (rest bytes : list ascii) (s : Station.state) :
  Station.loop (Client true (c :: rest)) s = Station.dispatch c s
  /\ Station.loop (Client true []) s = Outcome tt s []
  /\ Station.loop (Client false bytes) s = Outcome tt s [].
Proof.
  split; [| split; reflexivity].
  unfold Station.loop. simpl connected. unfold when at 1.
  rewrite pending_byte_available. reflexivity.
Qed.

Lemma no_extend_switch (c : ascii) (plate : bool) :
  no_extend (switch c (Station.cases false plate)
               (Serial_println "Unknown command")).
Proof.
  apply switch_cover with (P := no_extend).
  - destruct plate; repeat constructor.
  - intros s. reflexivity.
Qed.

Lemma no_close_switch (c : ascii) (door : bool) :
  no_close (switch c (Station.cases door false)
              (Serial_println "Unknown command")).
Proof.
  apply switch_cover with (P := no_close).
  - destruct door; repeat constructor.
  - intros s. reflexivity.
Qed.

(** X3: The interlocks of the single-channel sketch, for every client and every
    byte it may have sent: a pass that starts with the door sensor HIGH
    (door not closed) never writes the extend polarity (LOW) to the plate
    direction pin, and a pass that starts with the plate sensor HIGH (plate
    not retracted) never writes the close polarity (HIGH) to the door
    direction pin. *)
Theorem single_channel_interlocks
        (client : PhpocClient) (s : Station.state) :
  (inputs s Station.DOOR_PHOTO_PIN = HIGH ->
     writes_level Station.PLATE_DIRECTION_PIN LOW
       (pin_writes (io (Station.loop client) s)) = false)
  /\
  (inputs s Station.PLATE_PHOTO_PIN = HIGH ->
     writes_level Station.DOOR_DIRECTION_PIN HIGH
       (pin_writes (io (Station.loop client) s)) = false).
Proof.
  split; intros Hsensor; unfold io;
    destruct (Station_loop_cases client s) as [-> | ->];
    try reflexivity;
    fold (io (Station.dispatch (client_read client)) s);
    rewrite dispatch_io.
  - unfold isDoorClosed. rewrite Hsensor. apply no_extend_switch.
  - unfold isPlateIn. rewrite Hsensor. apply no_close_switch.
Qed.

(** X3 on a take-off byte sent while the door is open, and on
    a landing byte sent while the plate is out. *)
Lemma single_channel_interlocks_witness :
  writes_level Station.PLATE_DIRECTION_PIN LOW
    (pin_writes (io (Station.loop (Client true ["G"%char]))
                    plate_in_door_open)) = false
  /\ writes_level Station.DOOR_DIRECTION_PIN HIGH
       (pin_writes (io (Station.loop (Client true ["H"%char]))
                       plate_sensor_high)) = false.
Proof.
  split.
  - apply (proj1 (single_channel_interlocks
                    (Client true ["G"%char]) plate_in_door_open)).
    reflexivity.
  - apply (proj2 (single_channel_interlocks
                    (Client true ["H"%char]) plate_sensor_high)).
    reflexivity.
Defined.

(** ** RosStationCommunication.cpp: the two switches side by side *)

(** Settles a goal about the dispatch of an arbitrary byte [c] by going
    through the case labels: [c] is one of them, or none. *)
Ltac by_case_label c finish :=
  repeat match goal with
         | |- context [Ascii.eqb c ?label] =>
             destruct (Ascii.eqb_spec c label) as [-> | ?]; [finish |]
         end;
  finish.

(** X7: The two switches are the same table under two alphabets: a ROS byte
    and the web byte paired with it leave the same board (pins, globals,
    clock) and perform the same pin writes at the same times: with the log
    lines and the server writes taken out, their timed I/O is the same.
    They differ only in the log text and the acknowledgment: each logs one
    line, at the time the byte is read, and the ROS byte alone is
    acknowledged.  The pairs cover the ROS alphabet. *)
Theorem channels_agree_on_the_board
        (a b : ascii) (s : RosStation.state) :
  In (a, b) channel_pairs ->
  exec (RosStation.ros_dispatch a) s = exec (RosStation.web_dispatch b) s
  /\ pin_writes (io (RosStation.ros_dispatch a) s)
     = pin_writes (io (RosStation.web_dispatch b) s)
  /\ map fst channel_pairs = channel_A_alphabet
  /\ In b channel_B_alphabet
  /\ board_events (io (RosStation.ros_dispatch a) s)
     = board_events (io (RosStation.web_dispatch b) s)
  /\ (exists line,
        hd_error (io (RosStation.ros_dispatch a) s)
        = Some (elapsed s, SerialPrintln line)
        /\ log_lines (io (RosStation.ros_dispatch a) s) = [line])
  /\ (exists line,
        hd_error (io (RosStation.web_dispatch b) s)
        = Some (elapsed s, SerialPrintln line)
        /\ log_lines (io (RosStation.web_dispatch b) s) = [line])
  /\ server_writes (io (RosStation.ros_dispatch a) s)
     = [(RosStation.ros_server, to_upper a)]
  /\ server_writes (io (RosStation.web_dispatch b) s) = [].
Proof.
  intros Hin. simpl in Hin.
  repeat (destruct Hin as [Hin | Hin];
          [injection Hin as <- <-;
           repeat split;
           try (simpl; tauto);
           eexists; split; reflexivity |]).
  destruct Hin.
Qed.

(** X7 at the take-off pair 'z' / 'G'. *)
Lemma channels_agree_on_the_board_witness :
  exec (RosStation.ros_dispatch "z") cold_board
  = exec (RosStation.web_dispatch "G") cold_board.
Proof.
  apply (channels_agree_on_the_board "z" "G" cold_board).
  simpl. tauto.
Defined.

Lemma ros_dispatch_motor_only (c : ascii) (s : RosStation.state) :
  only_pins motor_pins (pin_writes (io (RosStation.ros_dispatch c) s)) = true.
Proof.
  revert s. unfold RosStation.ros_dispatch.
  apply switch_cover with
    (P := fun p : prog RosStation.sketch_globals unit =>
            forall s, only_pins motor_pins (pin_writes (io p s)) = true).
  - repeat constructor.
  - reflexivity.
Qed.

Lemma web_dispatch_motor_only (c : ascii) (s : RosStation.state) :
  only_pins motor_pins (pin_writes (io (RosStation.web_dispatch c) s)) = true.
Proof.
  revert s. unfold RosStation.web_dispatch.
  apply switch_cover with
    (P := fun p : prog RosStation.sketch_globals unit =>
            forall s, only_pins motor_pins (pin_writes (io p s)) = true).
  - repeat constructor.
  - reflexivity.
Qed.

Lemma ros_dispatch_time (c : ascii) (s : RosStation.state) :
  elapsed (exec (RosStation.ros_dispatch c) s)
  = elapsed s
    + (if Ascii.eqb c "z" || Ascii.eqb c "x" then sequence_time else 0).
Proof.
  unfold RosStation.ros_dispatch, RosStation.ros_cases, switch.
  by_case_label c ltac:(cbn; unfold sequence_time, RosStation.DOOR_TIME,
                        RosStation.PLATE_TIME; lia).
Qed.

Lemma web_dispatch_time (c : ascii) (s : RosStation.state) :
  elapsed (exec (RosStation.web_dispatch c) s)
  = elapsed s
    + (if Ascii.eqb c "G" || Ascii.eqb c "H" then sequence_time else 0).
Proof.
  unfold RosStation.web_dispatch, RosStation.web_cases, switch.
  by_case_label c ltac:(cbn; unfold sequence_time, RosStation.DOOR_TIME,
                        RosStation.PLATE_TIME; lia).
Qed.

Lemma ros_dispatch_flag (c : ascii) (s : RosStation.state) :
  RosStation.wirelessPowerState (globals (exec (RosStation.ros_dispatch c) s))
  = flag_after_ros c (RosStation.wirelessPowerState (globals s)).
Proof.
  unfold flag_after_ros, RosStation.ros_dispatch, RosStation.ros_cases, switch.
  by_case_label c reflexivity.
Qed.

Lemma web_dispatch_flag (c : ascii) (s : RosStation.state) :
  RosStation.wirelessPowerState (globals (exec (RosStation.web_dispatch c) s))
  = flag_after_web c (RosStation.wirelessPowerState (globals s)).
Proof.
  unfold flag_after_web, RosStation.web_dispatch, RosStation.web_cases, switch.
  by_case_label c reflexivity.
Qed.

(** X8: The wireless-power flag after a dispatch, for every byte: 'e' (ROS)
    and 'C' (web) set it to 0, 'f' and 'F' set it to 1, every other byte
    leaves it as it was; and no byte makes a dispatch write any pin but a
    motor pin, so the relay pin is never written by a dispatch. *)
Theorem power_flag_changes_only_on_power_bytes
        (c : ascii) (s : RosStation.state) :
  RosStation.wirelessPowerState (globals (exec (RosStation.ros_dispatch c) s))
  = (if Ascii.eqb c "e" then 0
     else if Ascii.eqb c "f" then 1
     else RosStation.wirelessPowerState (globals s))
  /\ RosStation.wirelessPowerState
       (globals (exec (RosStation.web_dispatch c) s))
     = (if Ascii.eqb c "C" then 0
        else if Ascii.eqb c "F" then 1
        else RosStation.wirelessPowerState (globals s))
  /\ only_pins motor_pins (pin_writes (io (RosStation.ros_dispatch c) s))
     = true
  /\ only_pins motor_pins (pin_writes (io (RosStation.web_dispatch c) s))
     = true.
Proof.
  split; [| split; [| split]].
  - apply ros_dispatch_flag.
  - apply web_dispatch_flag.
  - apply ros_dispatch_motor_only.
  - apply web_dispatch_motor_only.
Qed.

(** X9: How long a dispatch blocks, for every byte: the take-off and landing
    bytes ('z', 'x' on ROS; 'G', 'H' on the web) block for DOOR_TIME +
    PLATE_TIME = 70000 ms, every other byte returns at once. *)
Theorem dispatch_blocking_time (c : ascii) (s : RosStation.state) :
  elapsed (exec (RosStation.ros_dispatch c) s)
  = elapsed s
    + (if Ascii.eqb c "z" || Ascii.eqb c "x" then sequence_time else 0)
  /\ elapsed (exec (RosStation.web_dispatch c) s)
     = elapsed s
       + (if Ascii.eqb c "G" || Ascii.eqb c "H" then sequence_time else 0)
  /\ sequence_time = 70000.
Proof.
  split; [apply ros_dispatch_time | split; [apply web_dispatch_time |]].
  reflexivity.
Qed.

(** X10: The acknowledgment of a ROS byte is the last thing its dispatch does,
    issued at the time the dispatch returns: after the pin writes of the
    action, and for the take-off and landing bytes only once the whole
    timed sequence has run. *)
Theorem ack_follows_the_action (c : ascii) (s : RosStation.state) :
  In c channel_A_alphabet ->
  last (io (RosStation.ros_dispatch c) s) (elapsed s, ClientFlush 0)
  = (elapsed (exec (RosStation.ros_dispatch c) s),
     ServerWrite RosStation.ros_server (to_upper c)).
Proof.
  intros Hin. simpl in Hin.
  repeat (destruct Hin as [<- | Hin]; [reflexivity |]).
  destruct Hin.
Qed.

(** X10 at the landing byte 'x', acknowledged 70000 ms after it is read. *)
Lemma ack_follows_the_action_witness :
  last (io (RosStation.ros_dispatch "x") cold_board) (0, ClientFlush 0)
  = (70000, ServerWrite 23 "X").
Proof.
  apply (ack_follows_the_action "x" cold_board).
  simpl. tauto.
Defined.

(** ** RosStationCommunication.cpp: whole passes and histories *)

(** Greeting touches neither pins nor clock nor the power flag. *)
Lemma greet_new_client_frame (s : RosStation.state) :
  let s' := exec RosStation.greet_new_client s in
  pins s' = pins s
  /\ inputs s' = inputs s
  /\ elapsed s' = elapsed s
  /\ RosStation.wirelessPowerState (globals s')
     = RosStation.wirelessPowerState (globals s)
  /\ pin_writes (io RosStation.greet_new_client s) = []
  /\ server_writes (io RosStation.greet_new_client s) = [].
Proof.
  unfold exec, io, RosStation.greet_new_client, bind, get_globals; cbn.
  destruct (RosStation.alreadyConnected (globals s)); cbn; repeat split.
Qed.

(** The relay step takes no time and looks at no input. *)
Lemma drive_relay_frame (s : RosStation.state) :
  elapsed (exec RosStation.drive_relay s) = elapsed s
  /\ inputs (exec RosStation.drive_relay s) = inputs s.
Proof.
  unfold exec, RosStation.drive_relay, bind, get_globals; cbn.
  destruct (RosStation.wirelessPowerState (globals s) =? 0); split;
    reflexivity.
Qed.

Lemma ros_dispatch_keeps_range (c : ascii) (s : RosStation.state) :
  flag_in_range s -> flag_in_range (exec (RosStation.ros_dispatch c) s).
Proof.
  intros Hs.
  unfold RosStation.ros_dispatch, RosStation.ros_cases, switch.
  by_case_label c
    ltac:(first [exact Hs | left; reflexivity | right; reflexivity]).
Qed.

Lemma web_dispatch_keeps_range (c : ascii) (s : RosStation.state) :
  flag_in_range s -> flag_in_range (exec (RosStation.web_dispatch c) s).
Proof.
  intros Hs.
  unfold RosStation.web_dispatch, RosStation.web_cases, switch.
  by_case_label c
    ltac:(first [exact Hs | left; reflexivity | right; reflexivity]).
Qed.

Lemma loop_keeps_range (ros_client web_client : PhpocClient)
      (s : RosStation.state) :
  flag_in_range s ->
  flag_in_range (exec (RosStation.loop ros_client web_client) s).
Proof.
  intros Hs.
  assert (Hrelay : forall m, flag_in_range m ->
                             flag_in_range (exec RosStation.drive_relay m)).
  { intros m Hm. unfold flag_in_range.
    destruct (drive_relay_spec m) as [-> _]. exact Hm. }
  destruct (client_present (ros_client, web_client)) eqn:E.
  - destruct (loop_present ros_client web_client s E) as [-> _].
    apply Hrelay.
    assert (Hgreet : flag_in_range (exec RosStation.greet_new_client s)).
    { unfold flag_in_range.
      destruct (greet_new_client_frame s) as [_ [_ [_ [-> _]]]].
      exact Hs. }
    assert (Hros : flag_in_range
                     (exec (serve_ros ros_client)
                        (exec RosStation.greet_new_client s))).
    { unfold serve_ros, when.
      destruct (0 <? client_available ros_client);
        [apply ros_dispatch_keeps_range |]; exact Hgreet. }
    unfold serve_web, when.
    destruct (0 <? client_available web_client);
      [apply web_dispatch_keeps_range |]; exact Hros.
  - destruct (loop_absent ros_client web_client s E) as [-> _].
    apply Hrelay, Hs.
Qed.

(** X11: From power-on, after setup and any history of passes, whatever bytes
    the clients sent, wirelessPowerState is 0 or 1: no byte can put the
    flag outside its two documented values. *)
Theorem power_flag_stays_in_range
        (polls : list (PhpocClient * PhpocClient))
        (pins0 inputs0 : Z -> level) :
  flag_in_range
    (exec (RosStation.main polls) (RosStation.power_on pins0 inputs0)).
Proof.
  unfold RosStation.main. rewrite exec_bind.
  assert (Hboot : flag_in_range
                    (exec RosStation.setup
                       (RosStation.power_on pins0 inputs0)))
    by (right; reflexivity).
  revert Hboot.
  generalize (exec RosStation.setup (RosStation.power_on pins0 inputs0)).
  simpl value.
  induction polls as [| [ros_client web_client] rest IH]; intros s Hs.
  - exact Hs.
  - simpl RosStation.loops. rewrite exec_bind.
    apply IH, loop_keeps_range, Hs.
Qed.

Lemma only_pins_app (allowed : list Z) (a b : list (Z * level)) :
  only_pins allowed (a ++ b) = only_pins allowed a && only_pins allowed b.
Proof. unfold only_pins. apply forallb_app. Qed.

(** Serving a client that has nothing to read does nothing. *)
Lemma serve_ros_time (ros_client : PhpocClient) (s : RosStation.state) :
  elapsed (exec (serve_ros ros_client) s)
  = elapsed s
    + (if (0 <? client_available ros_client)
          && (Ascii.eqb (client_read ros_client) "z"
              || Ascii.eqb (client_read ros_client) "x")
       then sequence_time else 0).
Proof.
  unfold serve_ros, when.
  destruct (0 <? client_available ros_client); simpl andb.
  - apply ros_dispatch_time.
  - cbn. lia.
Qed.

Lemma serve_web_time (web_client : PhpocClient) (s : RosStation.state) :
  elapsed (exec (serve_web web_client) s)
  = elapsed s
    + (if (0 <? client_available web_client)
          && (Ascii.eqb (client_read web_client) "G"
              || Ascii.eqb (client_read web_client) "H")
       then sequence_time else 0).
Proof.
  unfold serve_web, when.
  destruct (0 <? client_available web_client); simpl andb.
  - apply web_dispatch_time.
  - cbn. lia.
Qed.

(** With no client on either server, neither has a byte to read. *)
Lemma absent_nothing_available (ros_client web_client : PhpocClient) :
  client_present (ros_client, web_client) = false ->
  (0 <? client_available ros_client) = false
  /\ (0 <? client_available web_client) = false.
Proof.
  unfold client_present, client_available; simpl fst; simpl snd.
  intros E. apply orb_false_iff in E. destruct E as [-> ->].
  split; reflexivity.
Qed.

(** X12: How long a pass of the dual-channel loop blocks: 70000 ms for a
    take-off or landing byte read from the ROS client, plus 70000 ms for
    one read from the web client, and no time otherwise; so a pass never
    blocks for more than 140000 ms and the clock never runs backwards. *)
Theorem pass_blocking_time
        (ros_client web_client : PhpocClient) (s : RosStation.state) :
  let s' := exec (RosStation.loop ros_client web_client) s in
  elapsed s'
  = elapsed s
    + (if (0 <? client_available ros_client)
          && (Ascii.eqb (client_read ros_client) "z"
              || Ascii.eqb (client_read ros_client) "x")
       then sequence_time else 0)
    + (if (0 <? client_available web_client)
          && (Ascii.eqb (client_read web_client) "G"
              || Ascii.eqb (client_read web_client) "H")
       then sequence_time else 0)
  /\ elapsed s <= elapsed s' <= elapsed s + 140000.
Proof.
  intros s'. subst s'.
  assert (Heq : elapsed (exec (RosStation.loop ros_client web_client) s)
                = elapsed s
                  + (if (0 <? client_available ros_client)
                        && (Ascii.eqb (client_read ros_client) "z"
                            || Ascii.eqb (client_read ros_client) "x")
                     then sequence_time else 0)
                  + (if (0 <? client_available web_client)
                        && (Ascii.eqb (client_read web_client) "G"
                            || Ascii.eqb (client_read web_client) "H")
                     then sequence_time else 0)).
  { destruct (client_present (ros_client, web_client)) eqn:E.
    - destruct (loop_present ros_client web_client s E) as [-> _].
      destruct (drive_relay_frame
                  (exec (serve_web web_client)
                     (exec (serve_ros ros_client)
                        (exec RosStation.greet_new_client s)))) as [-> _].
      rewrite serve_web_time, serve_ros_time.
      destruct (greet_new_client_frame s) as [_ [_ [-> _]]].
      reflexivity.
    - destruct (loop_absent ros_client web_client s E) as [-> _].
      destruct (drive_relay_frame s) as [-> _].
      destruct (absent_nothing_available _ _ E) as [-> ->].
      simpl. lia. }
  split; [exact Heq |].
  rewrite Heq. unfold sequence_time, RosStation.DOOR_TIME,
                 RosStation.PLATE_TIME.
  destruct ((0 <? client_available ros_client)
            && (Ascii.eqb (client_read ros_client) "z"
                || Ascii.eqb (client_read ros_client) "x"));
    destruct ((0 <? client_available web_client)
              && (Ascii.eqb (client_read web_client) "G"
                  || Ascii.eqb (client_read web_client) "H"));
    lia.
Qed.

(** X13: Every pass of the dual-channel loop ends with exactly one write to the
    relay pin, carrying the level the flag asks for at that moment; all
    the pin writes before it in the pass are to motor pins, so no pass
    writes a sensor pin and the relay pin is written once per pass. *)
Theorem pass_drives_relay_once_at_the_end
        (ros_client web_client : PhpocClient) (s : RosStation.state) :
  let s' := exec (RosStation.loop ros_client web_client) s in
  exists before,
    io (RosStation.loop ros_client web_client) s
    = before
      ++ [(elapsed s',
           DigitalWrite RosStation.WPT_RELAY_PIN
             (if RosStation.wirelessPowerState (globals s') =? 0
              then HIGH else LOW))]
    /\ only_pins motor_pins (pin_writes before) = true.
Proof.
  intros s'. subst s'.
  destruct (client_present (ros_client, web_client)) eqn:E.
  - destruct (loop_present ros_client web_client s E) as [-> ->].
    set (s0 := exec RosStation.greet_new_client s).
    set (s1 := exec (serve_ros ros_client) s0).
    set (s2 := exec (serve_web web_client) s1).
    destruct (drive_relay_spec s2) as [-> [-> _]].
    destruct (drive_relay_frame s2) as [-> _].
    exists (io RosStation.greet_new_client s
            ++ io (serve_ros ros_client) s0
            ++ io (serve_web web_client) s1).
    split; [rewrite <- !app_assoc; reflexivity |].
    rewrite !pin_writes_app, !only_pins_app.
    destruct (greet_new_client_frame s) as [_ [_ [_ [_ [-> _]]]]].
    assert (Hros : only_pins motor_pins
                     (pin_writes (io (serve_ros ros_client) s0)) = true).
    { unfold serve_ros, when.
      destruct (0 <? client_available ros_client);
        [apply ros_dispatch_motor_only | reflexivity]. }
    assert (Hweb : only_pins motor_pins
                     (pin_writes (io (serve_web web_client) s1)) = true).
    { unfold serve_web, when.
      destruct (0 <? client_available web_client);
        [apply web_dispatch_motor_only | reflexivity]. }
    rewrite Hros, Hweb. reflexivity.
  - destruct (loop_absent ros_client web_client s E) as [-> ->].
    destruct (drive_relay_spec s) as [-> [-> _]].
    destruct (drive_relay_frame s) as [-> _].
    exists []. split; reflexivity.
Qed.

Lemma serve_ros_flag (ros_client : PhpocClient) (s : RosStation.state) :
  RosStation.wirelessPowerState (globals (exec (serve_ros ros_client) s))
  = (if 0 <? client_available ros_client
     then flag_after_ros (client_read ros_client)
            (RosStation.wirelessPowerState (globals s))
     else RosStation.wirelessPowerState (globals s)).
Proof.
  unfold serve_ros, when.
  destruct (0 <? client_available ros_client);
    [apply ros_dispatch_flag | reflexivity].
Qed.

Lemma serve_web_flag (web_client : PhpocClient) (s : RosStation.state) :
  RosStation.wirelessPowerState (globals (exec (serve_web web_client) s))
  = (if 0 <? client_available web_client
     then flag_after_web (client_read web_client)
            (RosStation.wirelessPowerState (globals s))
     else RosStation.wirelessPowerState (globals s)).
Proof.
  unfold serve_web, when.
  destruct (0 <? client_available web_client);
    [apply web_dispatch_flag | reflexivity].
Qed.

(** X14: The wireless-power flag at the end of a pass, for every pair of
    clients: the ROS byte (if one is pending) acts first, the web byte (if
    one is pending) acts last, so a web power byte overrides a ROS power
    byte of the same pass; and the relay pin ends the pass HIGH exactly
    when that final flag is 0, so a power byte reaches the relay in the
    pass that reads it. *)
Theorem pass_power_flag
        (ros_client web_client : PhpocClient) (s : RosStation.state) :
  let s' := exec (RosStation.loop ros_client web_client) s in
  let flag :=
    flag_after_pass ros_client web_client
      (RosStation.wirelessPowerState (globals s)) in
  RosStation.wirelessPowerState (globals s') = flag
  /\ pins s' RosStation.WPT_RELAY_PIN = (if flag =? 0 then HIGH else LOW).
Proof.
  intros s' flag.
  assert (Hflag : RosStation.wirelessPowerState (globals s') = flag).
  { subst s' flag. unfold flag_after_pass.
    destruct (client_present (ros_client, web_client)) eqn:E.
    - destruct (loop_present ros_client web_client s E) as [-> _].
      destruct (drive_relay_spec
                  (exec (serve_web web_client)
                     (exec (serve_ros ros_client)
                        (exec RosStation.greet_new_client s)))) as [-> _].
      destruct (greet_new_client_frame s) as [_ [_ [_ [Hg _]]]].
      rewrite serve_web_flag, serve_ros_flag, Hg. reflexivity.
    - destruct (loop_absent ros_client web_client s E) as [-> _].
      destruct (drive_relay_spec s) as [-> _].
      destruct (absent_nothing_available _ _ E) as [-> ->].
      reflexivity. }
  split; [exact Hflag |].
  rewrite <- Hflag. subst s'.
  destruct (client_present (ros_client, web_client)) eqn:E.
  - destruct (loop_present ros_client web_client s E) as [-> _].
    match goal with
    | |- context [exec RosStation.drive_relay ?m] =>
        destruct (drive_relay_spec m) as [-> [_ ->]]
    end.
    rewrite Z.eqb_refl. reflexivity.
  - destruct (loop_absent ros_client web_client s E) as [-> _].
    destruct (drive_relay_spec s) as [-> [_ ->]].
    rewrite Z.eqb_refl. reflexivity.
Qed.

Lemma exec_ret {G A} (a : A) (m : machine G) : exec (ret a) m = m.
Proof. reflexivity. Qed.

Lemma io_ret {G A} (a : A) (m : machine G) : io (ret a) m = [].
Proof. reflexivity. Qed.

(** A pass in which no byte is read, with the flag off and the relay pin
    already LOW: one relay write of LOW, no server write, and every pin
    and the flag as before. *)
Lemma silent_pass (ros_client web_client : PhpocClient)
      (s : RosStation.state) :
  silent (ros_client, web_client) = true ->
  RosStation.wirelessPowerState (globals s) = 1 ->
  pins s RosStation.WPT_RELAY_PIN = LOW ->
  let s' := exec (RosStation.loop ros_client web_client) s in
  pin_writes (io (RosStation.loop ros_client web_client) s)
    = [(RosStation.WPT_RELAY_PIN, LOW)]
  /\ server_writes (io (RosStation.loop ros_client web_client) s) = []
  /\ RosStation.wirelessPowerState (globals s') = 1
  /\ forall pin, pins s' pin = pins s pin.
Proof.
  intros Hsilent Hflag Hrelay s'.
  unfold silent in Hsilent; simpl fst in Hsilent; simpl snd in Hsilent.
  apply andb_true_iff in Hsilent. destruct Hsilent as [Hr Hw].
  apply negb_true_iff in Hr. apply negb_true_iff in Hw.
  assert (Hdrive : forall m,
             RosStation.wirelessPowerState (globals m) = 1 ->
             pin_writes (io RosStation.drive_relay m)
               = [(RosStation.WPT_RELAY_PIN, LOW)]
             /\ server_writes (io RosStation.drive_relay m) = []
             /\ RosStation.wirelessPowerState
                  (globals (exec RosStation.drive_relay m)) = 1
             /\ forall pin,
                  pins (exec RosStation.drive_relay m) pin
                  = if pin =? RosStation.WPT_RELAY_PIN then LOW
                    else pins m pin).
  { intros m Hm. destruct (drive_relay_spec m) as [Hg [Hio Hp]].
    rewrite Hg, Hio, Hm. repeat split. intros pin. rewrite Hp, Hm.
    reflexivity. }
  assert (Hsame : forall pin,
             (if pin =? RosStation.WPT_RELAY_PIN then LOW else pins s pin)
             = pins s pin).
  { intros pin.
    destruct (Z.eqb_spec pin RosStation.WPT_RELAY_PIN) as [-> | _];
      [symmetry; exact Hrelay | reflexivity]. }
  subst s'.
  destruct (client_present (ros_client, web_client)) eqn:E.
  - destruct (loop_present ros_client web_client s E) as [-> ->].
    unfold serve_ros, serve_web. rewrite Hr, Hw.
    unfold when. rewrite !exec_ret, !io_ret, !app_nil_l.
    destruct (greet_new_client_frame s)
      as [Hp [_ [_ [Hg [Hwrites Hsrv]]]]].
    rewrite <- Hg in Hflag.
    destruct (Hdrive _ Hflag) as [Dw [Ds [Df Dp]]].
    rewrite !pin_writes_app, !server_writes_app, Hwrites, Hsrv, Dw, Ds, Df.
    repeat split. intros pin. rewrite Dp, Hp. apply Hsame.
  - destruct (loop_absent ros_client web_client s E) as [-> ->].
    destruct (Hdrive _ Hflag) as [Dw [Ds [Df Dp]]].
    rewrite Dw, Ds, Df. repeat split. intros pin. rewrite Dp. apply Hsame.
Qed.

Lemma silent_loops (polls : list (PhpocClient * PhpocClient)) :
  forall s : RosStation.state,
    forallb silent polls = true ->
    RosStation.wirelessPowerState (globals s) = 1 ->
    pins s RosStation.WPT_RELAY_PIN = LOW ->
    pin_writes (io (RosStation.loops polls) s)
      = repeat (RosStation.WPT_RELAY_PIN, LOW) (List.length polls)
    /\ server_writes (io (RosStation.loops polls) s) = []
    /\ RosStation.wirelessPowerState
         (globals (exec (RosStation.loops polls) s)) = 1
    /\ forall pin, pins (exec (RosStation.loops polls) s) pin = pins s pin.
Proof.
  induction polls as [| [ros_client web_client] rest IH];
    intros s Hsilent Hflag Hrelay.
  - repeat split. exact Hflag.
  - simpl in Hsilent. apply andb_true_iff in Hsilent.
    destruct Hsilent as [Hfirst Hrest].
    destruct (silent_pass ros_client web_client s Hfirst Hflag Hrelay)
      as [Pw [Ps [Pf Pp]]].
    simpl RosStation.loops. rewrite exec_bind, io_bind.
    set (s1 := exec (RosStation.loop ros_client web_client) s) in *.
    assert (Hrelay1 : pins s1 RosStation.WPT_RELAY_PIN = LOW)
      by (rewrite Pp; exact Hrelay).
    destruct (IH s1 Hrest Pf Hrelay1) as [Iw [Is [If' Ip]]].
    rewrite pin_writes_app, server_writes_app, Pw, Ps, Iw, Is.
    repeat split.
    + exact If'.
    + intros pin. rewrite Ip. apply Pp.
Qed.

(** X15: From power-on, over any history of passes in which no byte is read
    (no client, or clients that send nothing), the only pin writes are the
    three of setup (both enable pins HIGH, relay LOW) followed by one relay
    write of LOW per pass; nothing is written to a server, and at the end
    both motors are disabled, the relay is off and the flag is 1. *)
Theorem silent_history_keeps_station_idle
        (polls : list (PhpocClient * PhpocClient))
        (pins0 inputs0 : Z -> level) :
  forallb silent polls = true ->
  let boot := RosStation.power_on pins0 inputs0 in
  let s' := exec (RosStation.main polls) boot in
  pin_writes (io (RosStation.main polls) boot)
    = [(RosStation.DOOR_ENABLE_PIN, HIGH);
       (RosStation.PLATE_ENABLE_PIN, HIGH);
       (RosStation.WPT_RELAY_PIN, LOW)]
      ++ repeat (RosStation.WPT_RELAY_PIN, LOW) (List.length polls)
  /\ server_writes (io (RosStation.main polls) boot) = []
  /\ pins s' RosStation.DOOR_ENABLE_PIN = HIGH
  /\ pins s' RosStation.PLATE_ENABLE_PIN = HIGH
  /\ pins s' RosStation.WPT_RELAY_PIN = LOW
  /\ RosStation.wirelessPowerState (globals s') = 1.
Proof.
  intros Hsilent boot s'. subst s'.
  unfold RosStation.main. rewrite exec_bind, io_bind.
  set (s0 := exec RosStation.setup boot). simpl value.
  destruct (silent_loops polls s0 Hsilent eq_refl eq_refl)
    as [Lw [Ls [Lf Lp]]].
  rewrite pin_writes_app, server_writes_app, Lw, Ls, Lf, !Lp.
  repeat split.
Qed.

(** X15 over a pass without clients and a pass with a ROS client that
    sent nothing. *)
Lemma silent_history_keeps_station_idle_witness :
  pin_writes
    (io (RosStation.main [(no_client, no_client); (ros_peer [], no_client)])
        cold_board)
  = [(5, HIGH); (7, HIGH); (10, LOW); (10, LOW); (10, LOW)].
Proof.
  apply (silent_history_keeps_station_idle
           [(no_client, no_client); (ros_peer [], no_client)]
           (fun _ => LOW) (fun _ => HIGH)).
  reflexivity.
Defined.

(** ** RosStationCommunication.cpp never reads a sensor *)

Section IgnoresInputs.

Context {G : Type}.

Lemma ii_ret {A} (a : A) : ignores_inputs (@ret G A a).
Proof. intros levels s. reflexivity. Qed.

Lemma ii_emit (e : event) : ignores_inputs (@emit G e).
Proof. intros levels s. reflexivity. Qed.

Lemma ii_get_globals : ignores_inputs (@get_globals G).
Proof. intros levels s. reflexivity. Qed.

Lemma ii_put_globals (g : G) : ignores_inputs (put_globals g).
Proof. intros levels s. reflexivity. Qed.

Lemma ii_delay (ms : Z) : ignores_inputs (@delay G ms).
Proof. intros levels s. reflexivity. Qed.

Lemma ii_digitalWrite (pin : Z) (val : level) :
  ignores_inputs (@digitalWrite G pin val).
Proof. intros levels s. reflexivity. Qed.

Lemma ii_bind {A B} (p : prog G A) (k : A -> prog G B) :
  ignores_inputs p ->
  (forall a, ignores_inputs (k a)) ->
  ignores_inputs (bind p k).
Proof.
  intros Hp Hk levels s. unfold bind.
  rewrite (Hp levels s). simpl value; simpl final; simpl output.
  rewrite (Hk (value (p s)) levels (final (p s))). reflexivity.
Qed.

Lemma ii_when (c : bool) (body : prog G unit) :
  ignores_inputs body -> ignores_inputs (when c body).
Proof. destruct c; [trivial | intros _; apply ii_ret]. Qed.

Lemma ii_if {A} (c : bool) (p q : prog G A) :
  ignores_inputs p -> ignores_inputs q ->
  ignores_inputs (if c then p else q).
Proof. destruct c; trivial. Qed.

Lemma ii_switch (c : ascii) (cases : list (ascii * prog G unit))
      (d : prog G unit) :
  Forall (fun kb => ignores_inputs (snd kb)) cases ->
  ignores_inputs d ->
  ignores_inputs (switch c cases d).
Proof. apply switch_cover. Qed.

End IgnoresInputs.

Create HintDb blind.

#[local] Hint Resolve ii_ret ii_emit ii_get_globals ii_put_globals ii_delay
  ii_digitalWrite ii_when ii_if : blind.

Ltac blind_steps :=
  repeat first
    [ apply ii_bind; [| intros ?]
    | apply ii_when
    | apply ii_if
    | progress auto with blind
    | progress unfold Serial_println, RosStation.server_write,
        RosStation.client_flush, RosStation.set_wirelessPowerState,
        RosStation.set_alreadyConnected, RosStation.StopAllMotors,
        RosStation.CloseDoor, RosStation.OpenDoor, RosStation.RetractPlate,
        RosStation.ExtendPlate, RosStation.TakeOffSequence,
        RosStation.LandingSequence, RosStation.EnableWirelessPower,
        RosStation.DisableWirelessPower ].

Lemma ii_ros_dispatch (c : ascii) :
  ignores_inputs (RosStation.ros_dispatch c).
Proof.
  apply ii_switch; [| blind_steps].
  unfold RosStation.ros_cases. repeat constructor; simpl snd; blind_steps.
Qed.

Lemma ii_web_dispatch (c : ascii) :
  ignores_inputs (RosStation.web_dispatch c).
Proof.
  apply ii_switch; [| blind_steps].
  unfold RosStation.web_cases. repeat constructor; simpl snd; blind_steps.
Qed.

Lemma ii_loop (ros_client web_client : PhpocClient) :
  ignores_inputs (RosStation.loop ros_client web_client).
Proof.
  unfold RosStation.loop, RosStation.greet_new_client,
    RosStation.drive_relay.
  apply ii_bind; [| intros _; blind_steps].
  apply ii_when. apply ii_bind; [blind_steps | intros _].
  apply ii_bind; intros;
    apply ii_when; [apply ii_ros_dispatch | apply ii_web_dispatch].
Qed.

Lemma ii_loops (polls : list (PhpocClient * PhpocClient)) :
  ignores_inputs (RosStation.loops polls).
Proof.
  induction polls as [| [ros_client web_client] rest IH]; simpl.
  - apply ii_ret.
  - apply ii_bind; [apply ii_loop | intros _; exact IH].
Qed.

(** X16: The dual-channel sketch never reads a sensor: over any history of
    passes and from any board, putting other levels on the input pins
    (the two photo sensors among them) changes neither the I/O performed
    nor the pins, globals and clock the history ends with. *)
Theorem dual_channel_ignores_sensors
        (polls : list (PhpocClient * PhpocClient))
        (levels : Z -> level) (s : RosStation.state) :
  io (RosStation.loops polls) (set_inputs levels s)
    = io (RosStation.loops polls) s
  /\ exec (RosStation.loops polls) (set_inputs levels s)
     = set_inputs levels (exec (RosStation.loops polls) s).
Proof.
  unfold io, exec. rewrite (ii_loops polls levels s). split; reflexivity.
Qed.

(** ** RosStationCommunication.cpp: how the primitives compose *)

(** X17: No interlock between the primitives: of two opposite commands to the
    same motor the later one decides every pin level, and a door command
    and a plate command (each of the four pairs) leave the same pin levels
    in either order. *)
Theorem last_primitive_wins (s : RosStation.state) (pin : Z) :
  pins (exec (RosStation.OpenDoor ;; RosStation.CloseDoor) s) pin
    = pins (exec RosStation.CloseDoor s) pin
  /\ pins (exec (RosStation.CloseDoor ;; RosStation.OpenDoor) s) pin
     = pins (exec RosStation.OpenDoor s) pin
  /\ pins (exec (RosStation.ExtendPlate ;; RosStation.RetractPlate) s) pin
     = pins (exec RosStation.RetractPlate s) pin
  /\ pins (exec (RosStation.RetractPlate ;; RosStation.ExtendPlate) s) pin
     = pins (exec RosStation.ExtendPlate s) pin
  /\ pins (exec (RosStation.CloseDoor ;; RosStation.ExtendPlate) s) pin
     = pins (exec (RosStation.ExtendPlate ;; RosStation.CloseDoor) s) pin
  /\ pins (exec (RosStation.OpenDoor ;; RosStation.RetractPlate) s) pin
     = pins (exec (RosStation.RetractPlate ;; RosStation.OpenDoor) s) pin
  /\ pins (exec (RosStation.CloseDoor ;; RosStation.RetractPlate) s) pin
     = pins (exec (RosStation.RetractPlate ;; RosStation.CloseDoor) s) pin
  /\ pins (exec (RosStation.OpenDoor ;; RosStation.ExtendPlate) s) pin
     = pins (exec (RosStation.ExtendPlate ;; RosStation.OpenDoor) s) pin.
Proof.
  cbn. unfold upd, RosStation.DOOR_DIRECTION_PIN, RosStation.DOOR_ENABLE_PIN,
         RosStation.PLATE_DIRECTION_PIN, RosStation.PLATE_ENABLE_PIN.
  destruct (Z.eqb_spec pin 4), (Z.eqb_spec pin 5),
           (Z.eqb_spec pin 6), (Z.eqb_spec pin 7);
    repeat split; reflexivity || lia.
Qed.

(** X18: Neither timed sequence ever disables a motor: TakeOffSequence and
    LandingSequence write no HIGH to an enable pin and return with both
    enable pins LOW (both motors still energized), the directions at
    open/extend after a take-off and at close/retract after a landing, and
    the relay pin and the globals untouched. *)
Theorem sequences_leave_motors_energized (s : RosStation.state) :
  let t := exec RosStation.TakeOffSequence s in
  let l := exec RosStation.LandingSequence s in
  (pins t RosStation.DOOR_ENABLE_PIN = LOW
   /\ pins t RosStation.PLATE_ENABLE_PIN = LOW
   /\ pins t RosStation.DOOR_DIRECTION_PIN = LOW
   /\ pins t RosStation.PLATE_DIRECTION_PIN = LOW)
  /\ (pins l RosStation.DOOR_ENABLE_PIN = LOW
      /\ pins l RosStation.PLATE_ENABLE_PIN = LOW
      /\ pins l RosStation.DOOR_DIRECTION_PIN = HIGH
      /\ pins l RosStation.PLATE_DIRECTION_PIN = HIGH)
  /\ (writes_level RosStation.DOOR_ENABLE_PIN HIGH
        (pin_writes (io RosStation.TakeOffSequence s)) = false
      /\ writes_level RosStation.PLATE_ENABLE_PIN HIGH
           (pin_writes (io RosStation.TakeOffSequence s)) = false
      /\ writes_level RosStation.DOOR_ENABLE_PIN HIGH
           (pin_writes (io RosStation.LandingSequence s)) = false
      /\ writes_level RosStation.PLATE_ENABLE_PIN HIGH
           (pin_writes (io RosStation.LandingSequence s)) = false)
  /\ (globals t = globals s /\ globals l = globals s
      /\ pins t RosStation.WPT_RELAY_PIN = pins s RosStation.WPT_RELAY_PIN
      /\ pins l RosStation.WPT_RELAY_PIN = pins s RosStation.WPT_RELAY_PIN).
Proof.
  cbn. repeat split.
Qed.

(** ** Station.cpp: the commands without a guard *)

(** X6: Retracting the plate (D), opening the door (B) and stopping (I) are
    never refused: whatever the two sensors read, each performs the two
    pin writes of its primitive, so the same writes on any two boards. *)
Theorem unguarded_commands_ignore_sensors (s s' : Station.state) :
  pin_writes (io (Station.dispatch "D") s)
    = [(Station.PLATE_DIRECTION_PIN, HIGH); (Station.PLATE_ENABLE_PIN, LOW)]
  /\ pin_writes (io (Station.dispatch "B") s)
     = [(Station.DOOR_DIRECTION_PIN, LOW); (Station.DOOR_ENABLE_PIN, LOW)]
  /\ pin_writes (io (Station.dispatch "I") s)
     = [(Station.DOOR_ENABLE_PIN, HIGH); (Station.PLATE_ENABLE_PIN, HIGH)]
  /\ pin_writes (io (Station.dispatch "D") s)
     = pin_writes (io (Station.dispatch "D") s')
  /\ pin_writes (io (Station.dispatch "B") s)
     = pin_writes (io (Station.dispatch "B") s')
  /\ pin_writes (io (Station.dispatch "I") s)
     = pin_writes (io (Station.dispatch "I") s').
Proof.
  repeat split.
Qed.
